(** * pambox.idealobs: the statistical ideal observer and the psychometric
      function

    Shallow embedding of [pambox/idealobs.py].

    Numbers.  A binary64 value is modelled by [float64]: a finite value is a
    real number, and the three special values of IEEE 754 (the two infinities
    and not-a-number) are kept, with the arithmetic rules IEEE 754 gives them.
    Rounding and the sign of zero are not represented: a finite result is the
    exact real result, and a zero divisor counts as positive zero.

    Libraries.  [scipy.special.erfc], [scipy.stats.norm] and [numpy]'s
    elementwise operations are given by their mathematical definitions; the
    MINPACK routine behind [scipy.optimize.leastsq] is a parameter of the
    development. *)

From Stdlib Require Import Reals Lra Lia ZArith Bool String List ClassicalEpsilon
  FunctionalExtensionality.
Import ListNotations.
Open Scope R_scope.

(* ================================================================= *)
(** ** Special functions on the reals *)

Module Special.

(** The integrand of the error function. *)
Definition gauss (t : R) : R := exp (- (t * t)).

Lemma gauss_continuity : continuity gauss.
Proof.
  unfold gauss.
  apply (continuity_comp (fun t => - (t * t)) exp).
  - reg.
  - apply derivable_continuous, derivable_exp.
Qed.

Definition gauss_integrable (a b : R) : Riemann_integrable gauss a b.
Proof.
  destruct (Rle_dec a b) as [Hab | Hab].
  - apply continuity_implies_RiemannInt;
      [exact Hab | intros; apply gauss_continuity].
  - apply RiemannInt_P1, continuity_implies_RiemannInt;
      [lra | intros; apply gauss_continuity].
Defined.

(** [Gint a b] is the integral of [exp (- t^2)] from [a] to [b]. *)
Definition Gint (a b : R) : R := RiemannInt (gauss_integrable a b).

(** erf x = 2/sqrt(pi) * integral from 0 to x of exp(-t^2) dt. *)
Definition erf (x : R) : R := 2 / sqrt PI * Gint 0 x.

(** erfc x = 1 - erf x. *)
Definition erfc (x : R) : R := 1 - erf x.

(** The standard normal cumulative distribution,
    ndtr x = (1 + erf (x / sqrt 2)) / 2. *)
Definition ndtr (x : R) : R := (1 + erf (x / sqrt 2)) / 2.

(** Its inverse: [ndtri p] is a point where [ndtr] takes the value [p]. *)
Definition ndtri (p : R) : R := epsilon (inhabits 0) (fun z => ndtr z = p).

End Special.

(* ================================================================= *)
(** ** binary64 values *)

Inductive float64 : Type :=
| Fin (r : R)
| PInf
| NInf
| NaN.

Inductive sign : Type := Neg | Zero | Pos.

Definition Rsign (r : R) : sign :=
  match total_order_T r 0 with
  | inleft (left _) => Neg
  | inleft (right _) => Zero
  | inright _ => Pos
  end.

Definition sign_opp (s : sign) : sign :=
  match s with Neg => Pos | Zero => Zero | Pos => Neg end.

(** The infinity of a given sign; a zero sign stands for the invalid
    operation [0 * inf]. *)
Definition inf_of (s : sign) : float64 :=
  match s with Neg => NInf | Zero => NaN | Pos => PInf end.

Definition fneg (x : float64) : float64 :=
  match x with
  | Fin r => Fin (- r)
  | PInf => NInf
  | NInf => PInf
  | NaN => NaN
  end.

Definition fadd (x y : float64) : float64 :=
  match x, y with
  | NaN, _ | _, NaN => NaN
  | Fin a, Fin b => Fin (a + b)
  | PInf, NInf | NInf, PInf => NaN
  | PInf, _ | _, PInf => PInf
  | NInf, _ | _, NInf => NInf
  end.

Definition fsub (x y : float64) : float64 := fadd x (fneg y).

Definition fmul (x y : float64) : float64 :=
  match x, y with
  | NaN, _ | _, NaN => NaN
  | Fin a, Fin b => Fin (a * b)
  | Fin a, PInf | PInf, Fin a => inf_of (Rsign a)
  | Fin a, NInf | NInf, Fin a => inf_of (sign_opp (Rsign a))
  | PInf, PInf | NInf, NInf => PInf
  | PInf, NInf | NInf, PInf => NInf
  end.

(** Division with numpy's error state: a zero divisor gives an infinity (or
    not-a-number for [0 / 0]) and a warning, never an exception. *)
Definition fdiv (x y : float64) : float64 :=
  match x, y with
  | NaN, _ | _, NaN => NaN
  | Fin a, Fin b =>
      match Rsign b with
      | Zero => inf_of (Rsign a)
      | _ => Fin (a / b)
      end
  | Fin _, PInf | Fin _, NInf => Fin 0
  | PInf, Fin b => match Rsign b with Neg => NInf | _ => PInf end
  | NInf, Fin b => match Rsign b with Neg => PInf | _ => NInf end
  | _, _ => NaN
  end.

Definition fsqrt (x : float64) : float64 :=
  match x with
  | Fin a => match Rsign a with Neg => NaN | _ => Fin (sqrt a) end
  | PInf => PInf
  | NInf => NaN
  | NaN => NaN
  end.

(** Comparisons: every comparison with not-a-number is false. *)
Definition fltb (x y : float64) : bool :=
  match x, y with
  | NaN, _ | _, NaN => false
  | Fin a, Fin b => if Rlt_dec a b then true else false
  | _, NInf => false
  | NInf, _ => true
  | PInf, _ => false
  | Fin _, PInf => true
  end.

Definition feqb (x y : float64) : bool :=
  match x, y with
  | Fin a, Fin b => if Req_dec_T a b then true else false
  | PInf, PInf | NInf, NInf => true
  | _, _ => false
  end.

Definition fleb (x y : float64) : bool := fltb x y || feqb x y.

Definition isnan (x : float64) : bool :=
  match x with NaN => true | _ => false end.

Definition isfinite (x : float64) : bool :=
  match x with Fin _ => true | _ => false end.

(** Python's truth value of a float: false for zero only. *)
Definition truthy (x : float64) : bool :=
  match x with
  | Fin r => if Req_dec_T r 0 then false else true
  | _ => true
  end.

(* ================================================================= *)
(** ** numpy and scipy *)

(** [is_integer y]: the real [y] is an integer. *)
Definition is_integer (y : R) : bool :=
  if Req_dec_T (IZR (Int_part y)) y then true else false.

Definition is_odd_integer (y : R) : bool :=
  is_integer y && Z.odd (Int_part y).

(** [x ** y] on binary64 (C's [pow], which [numpy.power] applies
    elementwise).  A finite negative base with a finite exponent that is not
    an integer is the invalid operation: the result is not-a-number. *)
Definition np_power (x y : float64) : float64 :=
  match x, y with
  | _, Fin b =>
      match Rsign b with
      | Zero => Fin 1
      | sb =>
          match x with
          | NaN => NaN
          | Fin a =>
              match Rsign a with
              | Pos => Fin (Rpower a b)
              | Zero => match sb with Neg => PInf | _ => Fin 0 end
              | Neg => if is_integer b then Fin (powerRZ a (Int_part b))
                       else NaN
              end
          | PInf => match sb with Neg => Fin 0 | _ => PInf end
          | NInf =>
              match sb with
              | Neg => Fin 0
              | _ => if is_odd_integer b then NInf else PInf
              end
          end
      end
  | Fin a, PInf =>
      match Rsign (Rabs a - 1) with
      | Zero => Fin 1
      | Neg => Fin 0
      | Pos => PInf
      end
  | Fin a, NInf =>
      match Rsign (Rabs a - 1) with
      | Zero => Fin 1
      | Neg => PInf
      | Pos => Fin 0
      end
  | PInf, PInf | NInf, PInf => PInf
  | PInf, NInf | NInf, NInf => Fin 0
  | Fin a, NaN => match Rsign (a - 1) with Zero => Fin 1 | _ => NaN end
  | _, NaN => NaN
  | NaN, _ => NaN
  end.

(** [scipy.special.erfc], elementwise. *)
Definition erfc (x : float64) : float64 :=
  match x with
  | Fin t => Fin (Special.erfc t)
  | PInf => Fin 0
  | NInf => Fin 2
  | NaN => NaN
  end.

(** [scipy.stats.norm.cdf(x)] with the default location and scale
    ([scipy.special.ndtr]). *)
Definition ndtr (x : float64) : float64 :=
  match x with
  | Fin t => Fin (Special.ndtr t)
  | PInf => Fin 1
  | NInf => Fin 0
  | NaN => NaN
  end.

(** [scipy.stats.norm.cdf(x, loc, scale)]: the argument is standardised, and
    a scale that is not positive or a standardised argument that is
    not-a-number give not-a-number. *)
Definition norm_cdf (x loc scale : float64) : float64 :=
  let z := fdiv (fsub x loc) scale in
  if fltb (Fin 0) scale then ndtr z else NaN.

(** [scipy.stats.norm.ppf(q)]: the quantile function on the open interval
    (0, 1), the infinities at the end points, not-a-number elsewhere. *)
Definition norm_ppf (q : float64) : float64 :=
  match q with
  | Fin p =>
      if Req_dec_T p 0 then NInf
      else if Req_dec_T p 1 then PInf
      else if Rlt_dec 0 p then
        if Rlt_dec p 1 then Fin (Special.ndtri p) else NaN
      else NaN
  | _ => NaN
  end.

(** Exceptions the module can raise. *)
Inductive exn : Type :=
| ZeroDivisionError
| ValueError
| TypeError
| IndexError.

Inductive result (A : Type) : Type :=
| Ok (a : A)
| Raise (e : exn).
Arguments Ok {A} a.
Arguments Raise {A} e.

Definition rbind {A B : Type} (r : result A) (f : A -> result B) : result B :=
  match r with
  | Ok a => f a
  | Raise e => Raise e
  end.

Declare Scope result_scope.
Delimit Scope result_scope with result.
Notation "x <- c1 ;; c2" := (rbind c1 (fun x => c2))
  (at level 100, c1 at next level, right associativity) : result_scope.

(** Python's [x / y] on floats: a zero divisor raises. *)
Definition py_truediv (x y : float64) : result float64 :=
  if truthy y then Ok (fdiv x y) else Raise ZeroDivisionError.

(** [p[i]]. *)
Definition getitem (p : list float64) (i : nat) : result float64 :=
  match nth_error p i with
  | Some v => Ok v
  | None => Raise IndexError
  end.

Fixpoint zip_with (f : float64 -> float64 -> float64) (a b : list float64)
  : list float64 :=
  match a, b with
  | x :: a', y :: b' => f x y :: zip_with f a' b'
  | _, _ => []
  end.

(** [a - b] on one-dimensional arrays, with numpy's broadcasting: equal
    lengths subtract elementwise, a length-one operand is stretched, any
    other pair of lengths raises [ValueError]. *)
Definition np_subtract (a b : list float64) : result (list float64) :=
  if (length a =? length b)%nat then Ok (zip_with fsub a b)
  else
    match a, b with
    | _, [y] => Ok (map (fun x => fsub x y) a)
    | [x], _ => Ok (map (fun y => fsub x y) b)
    | _, _ => Raise ValueError
    end.

(* ================================================================= *)
(** ** The ideal observer *)

(** The attributes of an [IdealObs] instance. *)
Module Self.
Record t : Type := mk
  { k : float64;
    q : float64;
    sigma_s : float64;
    m : float64 }.
End Self.

(** Methods run on the instance: they return a value or raise, and leave the
    instance in a new state either way. *)
Definition method (A : Type) : Type := Self.t -> result A * Self.t.

Definition mret {A : Type} (a : A) : method A := fun self => (Ok a, self).

Definition mbind {A B : Type} (c : method A) (f : A -> method B) : method B :=
  fun self =>
    match c self with
    | (Ok a, self') => f a self'
    | (Raise e, self') => (Raise e, self')
    end.

Definition lift {A : Type} (r : result A) : method A := fun self => (r, self).

Definition getattr (f : Self.t -> float64) : method float64 :=
  fun self => (Ok (f self), self).

Definition set_k (v : float64) : method unit :=
  fun self => (Ok tt, Self.mk v (Self.q self) (Self.sigma_s self) (Self.m self)).
Definition set_q (v : float64) : method unit :=
  fun self => (Ok tt, Self.mk (Self.k self) v (Self.sigma_s self) (Self.m self)).
Definition set_sigma_s (v : float64) : method unit :=
  fun self => (Ok tt, Self.mk (Self.k self) (Self.q self) v (Self.m self)).
Definition set_m (v : float64) : method unit :=
  fun self => (Ok tt, Self.mk (Self.k self) (Self.q self) (Self.sigma_s self) v).

Declare Scope method_scope.
Delimit Scope method_scope with method.
Notation "x <- c1 ;; c2" := (mbind c1 (fun x => c2))
  (at level 100, c1 at next level, right associativity) : method_scope.
Notation "c1 ;;; c2" := (mbind c1 (fun _ => c2))
  (at level 100, right associativity) : method_scope.

(** An optional argument whose default is [None] and which the code tests
    with [if arg:]: it counts as supplied when it is given and true. *)
Definition supplied (o : option float64) : option float64 :=
  match o with
  | Some v => if truthy v then Some v else None
  | None => None
  end.

Module IdealObs.

Definition default_k : float64 := Fin (sqrt 1.2).
Definition default_q : float64 := Fin 0.5.
Definition default_sigma_s : float64 := Fin 0.6.
Definition default_m : float64 := Fin 8000.

Definition or_default (o : option float64) (d : float64) : float64 :=
  match o with Some v => v | None => d end.

(** [IdealObs(k, q, sigma_s, m)]: the four attributes are stored as given. *)
Definition __init__ (k q sigma_s m : option float64) : result Self.t :=
  Ok (Self.mk (or_default k default_k) (or_default q default_q)
              (or_default sigma_s default_sigma_s) (or_default m default_m)).

Definition get_params (self : Self.t) : list (string * float64) :=
  [("k"%string, Self.k self); ("q"%string, Self.q self);
   ("sigma_s"%string, Self.sigma_s self); ("m"%string, Self.m self)].

(** The quantile [Un] and the two corrections derived from it. *)
Definition Un_of (m : float64) : result float64 :=
  (inv_m <- py_truediv (Fin 1) m ;;
   Ok (norm_ppf (fsub (Fin 1) inv_m)))%result.

Definition _snrenv_to_pc (snrenv : list float64) (k q sigma_s m : float64)
  : result (list float64) :=
  (Un <- Un_of m ;;
   let sn := fdiv (Fin 1.28255) Un in
   let un := fadd Un (fdiv (Fin 0.577) Un) in
   let dp := map (fun x => fmul k (np_power x q)) snrenv in
   Ok (map (fun d =>
              fmul (norm_cdf d un
                      (fsqrt (fadd (np_power sigma_s (Fin 2))
                                   (np_power sn (Fin 2)))))
                   (Fin 100)) dp))%result.

Definition snrenv_to_pc (snrenv : list float64) : method (list float64) :=
  fun self =>
    (_snrenv_to_pc snrenv (Self.k self) (Self.q self) (Self.sigma_s self)
                   (Self.m self), self).

Section Fit.

(** MINPACK's [lmdif]: from the residual function and the starting point
    to the final point and the termination code [info]; an exception of
    the residual function propagates. *)
Variable lmdif :
  (list float64 -> result (list float64)) -> list float64 ->
  result (list float64 * Z).

(** [scipy.optimize.leastsq(func, x0, args)] without [full_output]: the
    residual is evaluated once at [x0] to find its shape, fewer residuals
    than parameters is an error, and of the termination codes only those
    outside 1..8 raise: 5..8 (no convergence) only warn. *)
Definition leastsq
    (func : list float64 -> list float64 -> list float64 ->
            result (list float64))
    (x0 : list float64) (args : list float64 * list float64)
  : result (list float64 * Z) :=
  let f := fun p => func p (fst args) (snd args) in
  (r0 <- f x0 ;;
   if (length r0 <? length x0)%nat then Raise TypeError
   else
     retval <- lmdif f x0 ;;
     let info := snd retval in
     if ((1 <=? info) && (info <=? 8))%Z then Ok retval
     else Raise TypeError)%result.

(** The two residual functions of [fit_obs]. *)
Definition errfc_fixed (snrenv : list float64) (sigma_s m : float64)
    (p snr data : list float64) : result (list float64) :=
  (p0 <- getitem p 0 ;;
   p1 <- getitem p 1 ;;
   pc <- _snrenv_to_pc snrenv p0 p1 sigma_s m ;;
   np_subtract pc data)%result.

Definition errfc_free (snrenv : list float64) (m : float64)
    (p snr data : list float64) : result (list float64) :=
  (p0 <- getitem p 0 ;;
   p1 <- getitem p 1 ;;
   p2 <- getitem p 2 ;;
   pc <- _snrenv_to_pc snrenv p0 p1 p2 m ;;
   np_subtract pc data)%result.

Definition fit_obs (snrenv pcdata : list float64)
    (sigma_s m : option float64) : method unit :=
  (m <- match supplied m with
        | None => getattr Self.m
        | Some m => set_m m ;;; mret m
        end ;;
   self_k <- getattr Self.k ;;
   self_q <- getattr Self.q ;;
   self_sigma_s <- getattr Self.sigma_s ;;
   let '(errfc, p0) :=
     match supplied sigma_s with
     | Some sigma_s => (errfc_fixed snrenv sigma_s m, [self_k; self_q])
     | None => (errfc_free snrenv m, [self_k; self_q; self_sigma_s])
     end in
   retval <- lift (leastsq errfc p0 (snrenv, pcdata)) ;;
   let res := fst retval in
   match supplied sigma_s with
   | Some sigma_s =>
       match res with
       | [res_k; res_q] =>
           set_k res_k ;;; set_q res_q ;;; set_sigma_s sigma_s
       | _ => lift (Raise ValueError)
       end
   | None =>
       match res with
       | [res_k; res_q; res_sigma_s] =>
           set_k res_k ;;; set_q res_q ;;; set_sigma_s res_sigma_s
       | _ => lift (Raise ValueError)
       end
   end)%method.

End Fit.

End IdealObs.

(** [psy_fn(x, mu, sigma)], elementwise over the array [x]. *)
Definition psy_fn (x : list float64) (mu sigma : float64) : list float64 :=
  map (fun xi =>
         fdiv (fmul (Fin 100)
                    (erfc (fdiv (fneg (fsub xi mu))
                                (fmul (fsqrt (Fin 2)) sigma))))
              (Fin 2)) x.

Definition psy_fn_default_mu : float64 := Fin 0.
Definition psy_fn_default_sigma : float64 := Fin 1.

(* ================================================================= *)
(** ** The specification's wording, and a stand-in for MINPACK *)

(** The statistical transform as the specification words it, in its four
    steps, with the constant [c] of the shift [un = Un + c / Un] left open:
    the quantile [Un] at [1 - 1/m]; the scale [sn = 1.28255 / Un] and the
    shift [un]; the detection index [dp = k * x^q]; and 100 times the normal
    distribution function at [dp] with mean [un] and standard deviation
    [sqrt (sigma_s^2 + sn^2)]. *)
Definition transform_spec (c : R) (x : list float64) (k q sigma_s m : float64)
  : list float64 :=
  let Un := norm_ppf (fsub (Fin 1) (fdiv (Fin 1) m)) in
  let sn := fdiv (Fin 1.28255) Un in
  let un := fadd Un (fdiv (Fin c) Un) in
  let dp := map (fun xi => fmul k (np_power xi q)) x in
  map (fun d =>
         fmul (Fin 100)
              (norm_cdf d un
                 (fsqrt (fadd (fmul sigma_s sigma_s) (fmul sn sn))))) dp.

(** The transform is elementwise: one function of the metric value. *)
Definition transform_element (c : R) (k q sigma_s m : float64) (xi : float64)
  : float64 :=
  match transform_spec c [xi] k q sigma_s m with
  | [y] => y
  | _ => NaN
  end.

(** The standard deviation of the transform for a finite non-zero [Un]. *)
Definition sd_of (Un sigma_s : R) : R :=
  sqrt (sigma_s * sigma_s + 1.28255 / Un * (1.28255 / Un)).

(** The type of MINPACK's [lmdif] in this development. *)
Definition optimiser : Type :=
  (list float64 -> result (list float64)) -> list float64 ->
  result (list float64 * Z).

(** An optimiser that evaluates the residual function once at the starting
    point and then reports the point [x] with the termination code [info]. *)
Definition lmdif_fixed (x : list float64) (info : Z) : optimiser :=
  fun f x0 => (_ <- f x0 ;; Ok (x, info))%result.

(** The model with default parameters. *)
Definition default_obs : Self.t :=
  Self.mk IdealObs.default_k IdealObs.default_q IdealObs.default_sigma_s
          IdealObs.default_m.

(** The model [self] with its attribute [m] replaced. *)
Definition with_m (self : Self.t) (m : float64) : Self.t :=
  Self.mk (Self.k self) (Self.q self) (Self.sigma_s self) m.

(** The value of [m] a call of [fit_obs] works with. *)
Definition fit_m (m : option float64) (self : Self.t) : float64 :=
  match supplied m with
  | Some v => v
  | None => Self.m self
  end.

(** The residual function a call of [fit_obs] hands to [leastsq]. *)
Definition fit_residual (snrenv : list float64) (sigma_s : option float64)
    (m : float64)
  : list float64 -> list float64 -> list float64 -> result (list float64) :=
  match supplied sigma_s with
  | Some s => IdealObs.errfc_fixed snrenv s m
  | None => IdealObs.errfc_free snrenv m
  end.

(** The starting point of the optimisation: the free parameters. *)
Definition fit_start (sigma_s : option float64) (self : Self.t)
  : list float64 :=
  match supplied sigma_s with
  | Some _ => [Self.k self; Self.q self]
  | None => [Self.k self; Self.q self; Self.sigma_s self]
  end.

(** What [fit_obs] does with the outcome of [leastsq], on the model [self1]
    in which [m] is already in place. *)
Definition fit_store (sigma_s : option float64) (self1 : Self.t)
    (r : result (list float64 * Z)) : result unit * Self.t :=
  match r with
  | Raise e => (Raise e, self1)
  | Ok (res, _) =>
      match supplied sigma_s, res with
      | Some s, [res_k; res_q] =>
          (Ok tt, Self.mk res_k res_q s (Self.m self1))
      | None, [res_k; res_q; res_sigma_s] =>
          (Ok tt, Self.mk res_k res_q res_sigma_s (Self.m self1))
      | _, _ => (Raise ValueError, self1)
      end
  end.

(** [params[key]] on the dictionary [get_params] returns; [None] stands for
    a missing key. *)
Fixpoint dict_get (key : string) (d : list (string * float64))
  : option float64 :=
  match d with
  | [] => None
  | (k, v) :: d' => if String.eqb key k then Some v else dict_get key d'
  end.

(* ================================================================= *)
(** ** Properties of the special functions *)

Module SpecialFacts.
Import Special.

Lemma Gint_chasles (a b c : R) : Gint a b + Gint b c = Gint a c.
Proof. unfold Gint. apply RiemannInt_P26. Qed.

Lemma Gint_refl (a : R) : Gint a a = 0.
Proof. unfold Gint. apply RiemannInt_P9. Qed.

Lemma Gint_swap (a b : R) : Gint a b = - Gint b a.
Proof. unfold Gint. apply RiemannInt_P8. Qed.

Lemma gauss_pos (t : R) : 0 < gauss t.
Proof. unfold gauss. apply exp_pos. Qed.

Lemma gauss_le_1 (t : R) : gauss t <= 1.
Proof.
  unfold gauss. rewrite <- exp_0.
  destruct (Req_dec t 0) as [-> | Ht].
  - right. f_equal. ring.
  - left. apply exp_increasing. nra.
Qed.

Lemma gauss_even (t : R) : gauss (- t) = gauss t.
Proof. unfold gauss. f_equal. ring. Qed.

Lemma gauss_decr (s t : R) : 0 <= s <= t -> gauss t <= gauss s.
Proof.
  intros [Hs Hst]. unfold gauss.
  destruct (Req_dec s t) as [-> | Hne]; [right; reflexivity |].
  left. apply exp_increasing. nra.
Qed.

Lemma Gint_bounds (a b l u : R) :
  a <= b -> (forall t, a < t < b -> l <= gauss t <= u) ->
  l * (b - a) <= Gint a b <= u * (b - a).
Proof. intros Hab H. unfold Gint. apply RiemannInt_const_bound; assumption. Qed.

(** The integral of the positive integrand over a proper interval is
    positive. *)
Lemma Gint_pos (a b : R) : a < b -> 0 < Gint a b.
Proof.
  intros Hab.
  set (M := Rabs a + Rabs b).
  assert (HM : forall t, a < t < b -> gauss M <= gauss t <= 1).
  { intros t Ht. split; [| apply gauss_le_1].
    destruct (Rle_dec 0 t) as [H0 | H0].
    - apply gauss_decr. unfold M.
      pose proof (Rabs_pos a). pose proof (Rle_abs b). lra.
    - rewrite <- (gauss_even t). apply gauss_decr. unfold M.
      pose proof (Rabs_pos b). pose proof (Rle_abs (- a)) as Ha.
      rewrite Rabs_Ropp in Ha. lra. }
  pose proof (Gint_bounds a b (gauss M) 1 (Rlt_le _ _ Hab) HM) as [Hl _].
  pose proof (gauss_pos M). nra.
Qed.

Lemma quotient_near (I g h e : R) :
  0 < h -> (g - e) * h <= I <= (g + e) * h -> - e <= I / h - g <= e.
Proof.
  intros Hh [Hl Hu].
  replace (I / h - g) with ((I - g * h) / h) by (field; lra).
  split.
  - apply Rmult_le_reg_r with h; [exact Hh |].
    unfold Rdiv. rewrite Rmult_assoc, Rinv_l, Rmult_1_r by lra. lra.
  - apply Rmult_le_reg_r with h; [exact Hh |].
    unfold Rdiv. rewrite Rmult_assoc, Rinv_l, Rmult_1_r by lra. lra.
Qed.

(** The fundamental theorem of calculus for [Gint 0]. *)
Lemma Gint_derivable (x : R) : derivable_pt_lim (Gint 0) x (gauss x).
Proof.
  intros eps Heps.
  assert (He2 : 0 < eps / 2) by lra.
  destruct (gauss_continuity x (eps / 2) He2) as [alp [Halp Hc]].
  assert (Hnear : forall t, Rabs (t - x) < alp ->
                            gauss x - eps / 2 <= gauss t <= gauss x + eps / 2).
  { intros t Ht. destruct (Req_dec x t) as [<- | Hne]; [lra |].
    specialize (Hc t). simpl in Hc. unfold R_dist in Hc.
    assert (Hd : Rabs (gauss t - gauss x) < eps / 2).
    { apply Hc. split; [split; [exact I | exact Hne] | exact Ht]. }
    apply Rabs_def2 in Hd. lra. }
  exists (mkposreal alp Halp). intros h Hh0 Hh. simpl in Hh.
  assert (Hdiff : Gint 0 (x + h) - Gint 0 x = Gint x (x + h)).
  { rewrite <- (Gint_chasles 0 x (x + h)). ring. }
  rewrite Hdiff.
  destruct (Rlt_dec 0 h) as [Hpos | Hneg].
  - assert (Hb : forall t, x < t < x + h ->
                           gauss x - eps / 2 <= gauss t <= gauss x + eps / 2).
    { intros t Ht. apply Hnear. rewrite Rabs_pos_eq by lra.
      rewrite Rabs_pos_eq in Hh by lra. lra. }
    pose proof (Gint_bounds x (x + h) _ _ ltac:(lra) Hb) as Hlu.
    replace (x + h - x) with h in Hlu by ring.
    pose proof (quotient_near _ _ _ _ Hpos Hlu) as [Hq1 Hq2].
    apply Rabs_def1; lra.
  - assert (Hlt : h < 0) by lra.
    assert (Hb : forall t, x + h < t < x ->
                           gauss x - eps / 2 <= gauss t <= gauss x + eps / 2).
    { intros t Ht. apply Hnear. rewrite Rabs_left by lra.
      rewrite Rabs_left in Hh by lra. lra. }
    pose proof (Gint_bounds (x + h) x _ _ ltac:(lra) Hb) as Hlu.
    replace (x - (x + h)) with (- h) in Hlu by ring.
    assert (Hmh : 0 < - h) by lra.
    pose proof (quotient_near _ _ _ _ Hmh Hlu) as [Hq1 Hq2].
    rewrite (Gint_swap x (x + h)).
    replace (- Gint (x + h) x / h) with (Gint (x + h) x / - h) by (field; lra).
    apply Rabs_def1; lra.
Qed.


Lemma Gint_continuity : continuity (Gint 0).
Proof.
  intros x. apply derivable_continuous_pt.
  exists (gauss x). apply Gint_derivable.
Qed.

Lemma sqrt_PI_pos : 0 < sqrt PI.
Proof. apply sqrt_lt_R0, PI_RGT_0. Qed.

Lemma sqrt2_pos : 0 < sqrt 2.
Proof. apply sqrt_lt_R0. lra. Qed.

Lemma erf_coeff_pos : 0 < 2 / sqrt PI.
Proof. apply Rdiv_lt_0_compat; [lra | apply sqrt_PI_pos]. Qed.

Lemma erf_0 : erf 0 = 0.
Proof. unfold erf. rewrite Gint_refl. ring. Qed.


Lemma erf_incr (x y : R) : x < y -> erf x < erf y.
Proof.
  intros Hxy. unfold erf.
  rewrite <- (Gint_chasles 0 x y).
  pose proof (Gint_pos x y Hxy). pose proof erf_coeff_pos. nra.
Qed.

Lemma erfc_0 : erfc 0 = 1.
Proof. unfold erfc. rewrite erf_0. ring. Qed.



Lemma ndtr_0 : ndtr 0 = 1 / 2.
Proof.
  unfold ndtr. replace (0 / sqrt 2) with 0 by (unfold Rdiv; ring).
  rewrite erf_0. lra.
Qed.

Lemma ndtr_incr (x y : R) : x < y -> ndtr x < ndtr y.
Proof.
  intros Hxy. unfold ndtr.
  assert (H : erf (x / sqrt 2) < erf (y / sqrt 2)).
  { apply erf_incr. unfold Rdiv. apply Rmult_lt_compat_r; [| exact Hxy].
    apply Rinv_0_lt_compat, sqrt2_pos. }
  lra.
Qed.

Lemma ndtr_le (x y : R) : x <= y -> ndtr x <= ndtr y.
Proof.
  intros [Hlt | ->]; [left; apply ndtr_incr; exact Hlt | right; reflexivity].
Qed.

Lemma ndtr_inj (x y : R) : ndtr x = ndtr y -> x = y.
Proof.
  intros H. destruct (total_order_T x y) as [[Hlt | Heq] | Hgt].
  - pose proof (ndtr_incr _ _ Hlt). lra.
  - exact Heq.
  - pose proof (ndtr_incr _ _ Hgt). lra.
Qed.

Lemma ndtr_continuity : continuity ndtr.
Proof.
  assert (Hc : continuity (comp (Gint 0) (fun x => x * / sqrt 2))).
  { apply continuity_comp; [reg | apply Gint_continuity]. }
  assert (Hs : continuity
                 (plus_fct (fct_cte (1 / 2))
                    (mult_real_fct (/ sqrt PI)
                       (comp (Gint 0) (fun x => x * / sqrt 2))))).
  { apply continuity_plus; [apply continuity_const; intros x y; reflexivity |].
    apply continuity_scal, Hc. }
  intros x eps Heps. destruct (Hs x eps Heps) as [alp [Halp H]].
  exists alp. split; [exact Halp |]. intros y Hy.
  specialize (H y Hy).
  unfold plus_fct, fct_cte, mult_real_fct, comp in H.
  unfold ndtr, erf.
  replace ((1 + 2 / sqrt PI * Gint 0 (y / sqrt 2)) / 2)
    with (1 / 2 + / sqrt PI * Gint 0 (y * / sqrt 2))
    by (unfold Rdiv; field; apply Rgt_not_eq, sqrt_PI_pos).
  replace ((1 + 2 / sqrt PI * Gint 0 (x / sqrt 2)) / 2)
    with (1 / 2 + / sqrt PI * Gint 0 (x * / sqrt 2))
    by (unfold Rdiv; field; apply Rgt_not_eq, sqrt_PI_pos).
  exact H.
Qed.

(** A lower bound at 1, from the minimum of the integrand on the interval
    of integration. *)
Lemma ndtr_1_lower : 2 / 3 < ndtr 1.
Proof.
  pose proof sqrt2_pos as HA. pose proof sqrt_PI_pos as HB.
  set (s := 1 / sqrt 2).
  assert (Hs : 0 < s) by (apply Rdiv_lt_0_compat; lra).
  assert (Hss : s * s = 1 / 2).
  { unfold s. replace (1 / sqrt 2 * (1 / sqrt 2)) with (1 / (sqrt 2 * sqrt 2))
      by (field; lra).
    rewrite sqrt_sqrt by lra. reflexivity. }
  assert (Hg : 1 / 2 <= gauss s).
  { unfold gauss. rewrite Hss.
    pose proof (exp_ineq1_le (- (1 / 2))). lra. }
  assert (HG : 1 / 2 * s <= Gint 0 s).
  { assert (Hb : forall t, 0 < t < s -> 1 / 2 <= gauss t <= 1).
    { intros t Ht. split; [| apply gauss_le_1].
      apply Rle_trans with (gauss s); [exact Hg |].
      apply gauss_decr. lra. }
    pose proof (Gint_bounds 0 s _ _ (Rlt_le _ _ Hs) Hb) as [Hl _].
    rewrite Rminus_0_r in Hl. exact Hl. }
  assert (HAB : sqrt 2 * sqrt PI < 3).
  { rewrite <- sqrt_mult by (pose proof PI_RGT_0; lra).
    replace 3 with (sqrt (3 * 3)) by (apply sqrt_square; lra).
    apply sqrt_lt_1; pose proof PI_RGT_0; pose proof PI_4; lra. }
  assert (He : 1 / 3 < erf s).
  { unfold erf.
    apply Rlt_le_trans with (2 / sqrt PI * (1 / 2 * s)).
    - unfold s. replace (2 / sqrt PI * (1 / 2 * (1 / sqrt 2)))
        with (/ (sqrt 2 * sqrt PI)) by (field; lra).
      unfold Rdiv. rewrite Rmult_1_l.
      apply Rinv_lt_contravar; [| exact HAB].
      apply Rmult_lt_0_compat; [| lra]. apply Rmult_lt_0_compat; lra.
    - apply Rmult_le_compat_l; [left; apply erf_coeff_pos | exact HG]. }
  unfold ndtr. fold s. lra.
Qed.

(** [ndtri] inverts [ndtr] wherever an inverse exists. *)
Lemma ndtri_spec (p : R) : (exists z, ndtr z = p) -> ndtr (ndtri p) = p.
Proof. intros H. unfold ndtri. apply (epsilon_spec (inhabits 0) _ H). Qed.

Lemma ndtri_ndtr (z : R) : ndtri (ndtr z) = z.
Proof. apply ndtr_inj, ndtri_spec. exists z. reflexivity. Qed.

Lemma ndtri_half : ndtri (1 / 2) = 0.
Proof. rewrite <- ndtr_0. apply ndtri_ndtr. Qed.

(** Every value between [ndtr 0] and [ndtr 1] is reached, by the
    intermediate value theorem. *)
Lemma ndtr_reaches (p : R) :
  1 / 2 < p < ndtr 1 -> exists z, 0 <= z <= 1 /\ ndtr z = p.
Proof.
  intros [Hlo Hhi].
  assert (Hc : continuity (minus_fct ndtr (fct_cte p))).
  { apply continuity_minus; [apply ndtr_continuity |].
    apply continuity_const. intros x y. reflexivity. }
  destruct (IVT (minus_fct ndtr (fct_cte p)) 0 1 Hc) as [z [Hz Hfz]].
  - lra.
  - unfold minus_fct, fct_cte. rewrite ndtr_0. lra.
  - unfold minus_fct, fct_cte. lra.
  - exists z. split; [exact Hz |].
    unfold minus_fct, fct_cte in Hfz. lra.
Qed.

(** The quantile at 2/3 (the value [Un] of a three-word vocabulary). *)
Lemma ndtri_two_thirds :
  ndtr (ndtri (2 / 3)) = 2 / 3 /\ 0 < ndtri (2 / 3) <= 1.
Proof.
  destruct (ndtr_reaches (2 / 3)) as [z [[Hz0 Hz1] Hz]].
  { split; [lra | apply ndtr_1_lower]. }
  assert (Hi : ndtri (2 / 3) = z) by (rewrite <- Hz; apply ndtri_ndtr).
  rewrite Hi. split; [exact Hz |]. split; [| exact Hz1].
  destruct Hz0 as [Hlt | Heq]; [exact Hlt |].
  subst z. rewrite ndtr_0 in Hz. lra.
Qed.

End SpecialFacts.

(* ================================================================= *)
(** ** Properties of the binary64 operations *)

Lemma Rsign_Neg (r : R) : r < 0 -> Rsign r = Neg.
Proof.
  intros H. unfold Rsign.
  destruct (total_order_T r 0) as [[Hlt | Heq] | Hgt]; [reflexivity | lra | lra].
Qed.

Lemma Rsign_Zero (r : R) : r = 0 -> Rsign r = Zero.
Proof.
  intros H. unfold Rsign.
  destruct (total_order_T r 0) as [[Hlt | Heq] | Hgt]; [lra | reflexivity | lra].
Qed.

Lemma Rsign_Pos (r : R) : 0 < r -> Rsign r = Pos.
Proof.
  intros H. unfold Rsign.
  destruct (total_order_T r 0) as [[Hlt | Heq] | Hgt]; [lra | lra | reflexivity].
Qed.

Lemma Rsign_cases (r : R) :
  (r < 0 /\ Rsign r = Neg) \/ (r = 0 /\ Rsign r = Zero) \/ (0 < r /\ Rsign r = Pos).
Proof.
  destruct (total_order_T r 0) as [[Hlt | Heq] | Hgt].
  - left. split; [exact Hlt | apply Rsign_Neg, Hlt].
  - right. left. split; [exact Heq | apply Rsign_Zero, Heq].
  - right. right. split; [lra | apply Rsign_Pos; lra].
Qed.

(** Case analysis on the sign of a real, rewriting [Rsign] in the goal. *)
Ltac case_sign r :=
  let H := fresh "Hsign" in
  let E := fresh "Esign" in
  destruct (Rsign_cases r) as [[H E] | [[H E] | [H E]]];
  rewrite ?E.

Lemma truthy_Fin (r : R) : r <> 0 -> truthy (Fin r) = true.
Proof.
  intros H. unfold truthy. destruct (Req_dec_T r 0); [contradiction | reflexivity].
Qed.

Lemma truthy_zero : truthy (Fin 0) = false.
Proof.
  unfold truthy. destruct (Req_dec_T 0 0) as [_ | H]; [reflexivity | now elim H].
Qed.

Lemma fltb_Fin (a b : R) : fltb (Fin a) (Fin b) = true <-> a < b.
Proof.
  unfold fltb. destruct (Rlt_dec a b); split; intros; try assumption;
    try reflexivity; try discriminate; contradiction.
Qed.

Lemma fleb_Fin (a b : R) : fleb (Fin a) (Fin b) = true <-> a <= b.
Proof.
  unfold fleb, fltb, feqb.
  destruct (Rlt_dec a b), (Req_dec_T a b); simpl; split; intros;
    try reflexivity; try discriminate; lra.
Qed.

Lemma fleb_NaN_l (y : float64) : fleb NaN y = false.
Proof. reflexivity. Qed.

Lemma fdiv_Fin (a b : R) : b <> 0 -> fdiv (Fin a) (Fin b) = Fin (a / b).
Proof. intros H. unfold fdiv. case_sign b; [reflexivity | contradiction | reflexivity]. Qed.

Lemma fdiv_zero (a : R) : 0 < a -> fdiv (Fin a) (Fin 0) = PInf.
Proof.
  intros H. unfold fdiv. rewrite (Rsign_Zero 0) by reflexivity.
  rewrite (Rsign_Pos a) by exact H. reflexivity.
Qed.

Lemma fsqrt_Fin (a : R) : 0 <= a -> fsqrt (Fin a) = Fin (sqrt a).
Proof. intros H. unfold fsqrt. case_sign a; [lra | reflexivity | reflexivity]. Qed.

Lemma fmul_comm (x y : float64) : fmul x y = fmul y x.
Proof.
  destruct x, y; simpl; try reflexivity. f_equal. ring.
Qed.

Lemma fmul_NaN_r (x : float64) : fmul x NaN = NaN.
Proof. destruct x; reflexivity. Qed.

Lemma Int_part_IZR (n : Z) : Int_part (IZR n) = n.
Proof. symmetry. apply Int_part_spec. lra. Qed.

Lemma is_integer_IZR (n : Z) : is_integer (IZR n) = true.
Proof.
  unfold is_integer. rewrite Int_part_IZR.
  destruct (Req_dec_T (IZR n) (IZR n)) as [_ | H]; [reflexivity | now elim H].
Qed.

Lemma is_integer_false (y : R) :
  (forall n : Z, y <> IZR n) -> is_integer y = false.
Proof.
  intros H. unfold is_integer.
  destruct (Req_dec_T (IZR (Int_part y)) y) as [E | _]; [| reflexivity].
  elim (H (Int_part y)). symmetry. exact E.
Qed.

(** Squaring: [x ** 2] is [x * x], for every binary64 value. *)
Lemma np_power_2 (x : float64) : np_power x (Fin 2) = fmul x x.
Proof.
  unfold np_power. rewrite (Rsign_Pos 2) by lra.
  destruct x as [a | | |]; simpl; try reflexivity.
  - case_sign a.
    + change 2 with (IZR 2). rewrite is_integer_IZR, Int_part_IZR.
      simpl. f_equal. ring.
    + subst a. f_equal. ring.
    + f_equal. change 2 with (INR 2). rewrite Rpower_pow by exact Hsign. ring.
  - unfold is_odd_integer. change 2 with (IZR 2).
    rewrite is_integer_IZR, Int_part_IZR. reflexivity.
Qed.

(* ================================================================= *)
(** ** The statistical transform *)

Lemma Ok_inj {A : Type} (a b : A) : Ok a = Ok b -> a = b.
Proof. intros H. injection H as H. exact H. Qed.

Lemma Un_of_truthy (m : float64) :
  truthy m = true ->
  IdealObs.Un_of m = Ok (norm_ppf (fsub (Fin 1) (fdiv (Fin 1) m))).
Proof. intros H. unfold IdealObs.Un_of, py_truediv. rewrite H. reflexivity. Qed.

Lemma gt1_truthy (m : float64) : fltb (Fin 1) m = true -> truthy m = true.
Proof.
  destruct m as [r | | |]; simpl; try reflexivity; try discriminate.
  destruct (Rlt_dec 1 r); [| discriminate]. intros _.
  destruct (Req_dec_T r 0); [lra | reflexivity].
Qed.

Lemma norm_ppf_open (p : R) :
  0 < p < 1 -> norm_ppf (Fin p) = Fin (Special.ndtri p).
Proof.
  intros [H0 H1]. unfold norm_ppf.
  destruct (Req_dec_T p 0); [lra |].
  destruct (Req_dec_T p 1); [lra |].
  destruct (Rlt_dec 0 p); [| lra].
  destruct (Rlt_dec p 1); [reflexivity | lra].
Qed.

(** The quantile of a finite vocabulary size above one. *)
Lemma quantile_gt1 (m : R) :
  1 < m ->
  norm_ppf (fsub (Fin 1) (fdiv (Fin 1) (Fin m))) =
  Fin (Special.ndtri (1 - 1 / m)).
Proof.
  intros Hm. rewrite fdiv_Fin by lra. simpl.
  assert (H : 0 < / m < 1).
  { split; [apply Rinv_0_lt_compat; lra |].
    rewrite <- Rinv_1. apply Rinv_lt_contravar; lra. }
  replace (1 + - (1 / m)) with (1 - 1 / m) by ring.
  apply norm_ppf_open. unfold Rdiv. lra.
Qed.

(** The code computes the transform of the specification with the constant
    0.577. *)
Lemma code_is_transform_spec (x : list float64) (k q sigma_s m : float64) :
  truthy m = true ->
  IdealObs._snrenv_to_pc x k q sigma_s m =
  Ok (transform_spec 0.577 x k q sigma_s m).
Proof.
  intros Hm. unfold IdealObs._snrenv_to_pc, transform_spec.
  rewrite (Un_of_truthy m Hm). simpl rbind. f_equal.
  rewrite !np_power_2. rewrite !map_map. apply map_ext. intros xi.
  apply fmul_comm.
Qed.

Lemma sd_of_pos (Un sigma_s : R) : Un <> 0 -> 0 < sd_of Un sigma_s.
Proof.
  intros HU. unfold sd_of. apply sqrt_lt_R0.
  assert (H : 1.28255 / Un <> 0).
  { unfold Rdiv. apply Rmult_integral_contrapositive_currified; [lra |].
    apply Rinv_neq_0_compat, HU. }
  nra.
Qed.

Lemma norm_cdf_Fin (d loc scale : R) :
  0 < scale ->
  norm_cdf (Fin d) (Fin loc) (Fin scale) = Fin (Special.ndtr ((d - loc) / scale)).
Proof.
  intros Hs. unfold norm_cdf.
  assert (E : fltb (Fin 0) (Fin scale) = true) by (apply fltb_Fin; exact Hs).
  rewrite E. simpl fsub. rewrite fdiv_Fin by lra. reflexivity.
Qed.

(** The transform of the specification for a finite vocabulary size above
    one whose quantile [Un] is not zero, and finite [k] and [sigma_s]:
    location and scale are finite, the scale is positive. *)
Lemma transform_spec_regular (c k sigma_s m : R) (q : float64)
    (x : list float64) :
  1 < m ->
  let Un := Special.ndtri (1 - 1 / m) in
  Un <> 0 ->
  transform_spec c x (Fin k) q (Fin sigma_s) (Fin m) =
  map (fun xi =>
         fmul (Fin 100)
              (norm_cdf (fmul (Fin k) (np_power xi q))
                        (Fin (Un + c / Un)) (Fin (sd_of Un sigma_s)))) x.
Proof.
  intros Hm Un HU. unfold transform_spec.
  rewrite (quantile_gt1 m Hm). fold Un.
  rewrite !fdiv_Fin by exact HU. cbn [fadd fmul].
  rewrite fsqrt_Fin by nra.
  rewrite map_map. reflexivity.
Qed.

Lemma np_power_nonneg (a q : R) :
  0 < q -> 0 <= a ->
  exists pa, np_power (Fin a) (Fin q) = Fin pa /\ 0 <= pa.
Proof.
  intros Hq Ha. unfold np_power. rewrite (Rsign_Pos q Hq).
  case_sign a.
  - lra.
  - exists 0. split; [reflexivity | lra].
  - exists (Rpower a q). split; [reflexivity |].
    left. unfold Rpower. apply exp_pos.
Qed.

(** Raising to a positive power is non-decreasing on the non-negative
    values. *)
Lemma np_power_mono (a b q : R) :
  0 < q -> 0 <= a <= b ->
  exists pa pb,
    np_power (Fin a) (Fin q) = Fin pa /\ np_power (Fin b) (Fin q) = Fin pb /\
    pa <= pb.
Proof.
  intros Hq [Ha Hab]. unfold np_power. rewrite (Rsign_Pos q Hq).
  case_sign a; [lra | |].
  - destruct (np_power_nonneg b q Hq) as [pb [Eb Hb]]; [lra |].
    unfold np_power in Eb. rewrite (Rsign_Pos q Hq) in Eb.
    exists 0, pb. split; [reflexivity |]. split; [exact Eb | exact Hb].
  - rewrite (Rsign_Pos b) by lra.
    exists (Rpower a q), (Rpower b q). split; [reflexivity |].
    split; [reflexivity |]. apply Rle_Rpower_l; lra.
Qed.

Lemma quantile_of_three :
  Special.ndtri (1 - 1 / 3) <> 0.
Proof.
  replace (1 - 1 / 3) with (2 / 3) by lra.
  pose proof SpecialFacts.ndtri_two_thirds as [_ [H _]]. lra.
Qed.




(** With a vocabulary of two words the quantile is zero, scale and shift are
    infinite, and every element of the transform is not-a-number. *)
Lemma quantile_of_two :
  norm_ppf (fsub (Fin 1) (fdiv (Fin 1) (Fin 2))) = Fin 0.
Proof.
  rewrite quantile_gt1 by lra.
  replace (1 - 1 / 2) with (1 / 2) by lra.
  rewrite SpecialFacts.ndtri_half. reflexivity.
Qed.

Lemma norm_cdf_inf_inf (d : float64) : norm_cdf d PInf PInf = NaN.
Proof. destruct d; reflexivity. Qed.

Lemma transform_of_two (x : list float64) (k q sigma_s : float64) :
  IdealObs._snrenv_to_pc x k q sigma_s (Fin 2) = Ok (map (fun _ => NaN) x).
Proof.
  rewrite code_is_transform_spec by (apply truthy_Fin; lra).
  unfold transform_spec. rewrite quantile_of_two.
  rewrite !fdiv_zero by lra. cbn [fadd fmul].
  f_equal. rewrite map_map. apply map_ext. intros xi.
  destruct sigma_s as [s | | |]; cbn [fmul fadd fsqrt].
  - rewrite norm_cdf_inf_inf. reflexivity.
  - rewrite norm_cdf_inf_inf. reflexivity.
  - rewrite norm_cdf_inf_inf. reflexivity.
  - unfold norm_cdf. cbn [fltb]. reflexivity.
Qed.

(* ----------------------------------------------------------------- *)
(** *** Claims about the transform *)




(** C6 (as amended): for fixed [k > 0], [q > 0], [sigma_s] from 0 to 10^150
    and [m] above 1 and up to 10^15 whose quantile [Un] is not zero, the
    transform is non-decreasing in the metric value on the non-negative
    values: for [0 <= a <= b] the two results are finite and that of [a] is
    at most that of [b].  The ranges keep the arguments where binary64
    behaves as the reals do here: above about 1.8e16 the value [1 - 1/m]
    rounds to 1 and the quantile is infinite, and the square of a [sigma_s]
    above about 1.3e154 overflows. *)
Theorem transform_monotone (k q sigma_s m a b : R) :
  0 < k -> 0 < q -> 0 <= sigma_s <= 1e150 -> 1 < m <= 1e15 ->
  Special.ndtri (1 - 1 / m) <> 0 ->
  0 <= a <= b ->
  exists ya yb,
    IdealObs._snrenv_to_pc [Fin a; Fin b] (Fin k) (Fin q) (Fin sigma_s) (Fin m)
    = Ok [Fin ya; Fin yb] /\ ya <= yb.
Proof.
  intros Hk Hq Hs [Hm Hmax] HU Hab.
  rewrite code_is_transform_spec by (apply truthy_Fin; lra).
  rewrite (transform_spec_regular 0.577 k sigma_s m (Fin q) _ Hm HU).
  set (Un := Special.ndtri (1 - 1 / m)) in *.
  destruct (np_power_mono a b q Hq Hab) as [pa [pb [Ea [Eb Hp]]]].
  pose proof (sd_of_pos Un sigma_s HU) as Hsd.
  cbn [map]. rewrite Ea, Eb. cbn [fmul].
  rewrite !norm_cdf_Fin by exact Hsd.
  eexists. eexists. split; [reflexivity |].
  apply Rmult_le_compat_l; [lra |].
  apply SpecialFacts.ndtr_le.
  unfold Rdiv. apply Rmult_le_compat_r.
  - left. apply Rinv_0_lt_compat. exact Hsd.
  - nra.
Qed.

Lemma transform_monotone_witness :
  exists ya yb,
    IdealObs._snrenv_to_pc [Fin 1; Fin 4] (Fin 1) (Fin 0.5) (Fin 0.6) (Fin 3)
    = Ok [Fin ya; Fin yb] /\ ya <= yb.
Proof.
  apply (transform_monotone 1 0.5 0.6 3 1 4);
    [lra | lra | lra | lra | exact quantile_of_three | lra].
Defined.

(** C6 as the specification states it fails at [m = 2]: the parameters are
    in the stated range, [1 <= 2] are non-negative metric values, and both
    results are not-a-number, which compares below or equal to nothing. *)
Lemma transform_not_monotone_at_two :
  0 < sqrt 1.2 /\ 0 < 0.5 /\ 0 <= 0.6 /\ 1 < 2 /\ 0 <= 1 <= 2 /\
  IdealObs._snrenv_to_pc [Fin 1; Fin 2]
    (Fin (sqrt 1.2)) (Fin 0.5) (Fin 0.6) (Fin 2) = Ok [NaN; NaN] /\
  fleb NaN NaN = false.
Proof.
  repeat split; try lra.
  - apply sqrt_lt_R0. lra.
  - apply transform_of_two.
Qed.

Lemma transform_spec_map (c : R) (x : list float64) (k q sigma_s m : float64) :
  transform_spec c x k q sigma_s m =
  map (transform_element c k q sigma_s m) x.
Proof.
  unfold transform_element, transform_spec. rewrite map_map. reflexivity.
Qed.

Lemma np_power_negative (r q : R) :
  r < 0 -> (forall n : Z, q <> IZR n) -> np_power (Fin r) (Fin q) = NaN.
Proof.
  intros Hr Hq. unfold np_power.
  rewrite (Rsign_Neg r Hr), (is_integer_false q Hq).
  case_sign q; [reflexivity | | reflexivity].
  elim (Hq 0%Z). exact Hsign.
Qed.

Lemma norm_cdf_NaN (loc scale : float64) : norm_cdf NaN loc scale = NaN.
Proof. unfold norm_cdf. cbn [fsub fadd fdiv ndtr]. destruct (fltb _ _); reflexivity. Qed.

Lemma half_not_integer : forall n : Z, 0.5 <> IZR n.
Proof.
  intros n H.
  assert (H2 : IZR (2 * n) = IZR 1) by (rewrite mult_IZR; lra).
  apply eq_IZR in H2. lia.
Qed.

(** C8: when the metric array contains a negative value and [q] is not an
    integer, the transform does not raise, for a vocabulary size other than
    zero and a [sigma_s] whose square does not overflow (a finite [sigma_s]
    is at most 10^150 in magnitude).  It returns an array of the length of
    the input; every element is computed by the one formula
    [norm_cdf (k * x^q) un sd * 100] from its own metric value [x] (any
    value but minus infinity, where numpy's power takes a route of its own
    at [q = 0.5]), with the location [un] and the scale [sd] that do not
    depend on the metric values; and the element at each finite negative
    value is not-a-number. *)
Theorem negative_metric_gives_nan
    (snrenv : list float64) (k sigma_s m : float64) (q : R) :
  truthy m = true ->
  (forall s, sigma_s = Fin s -> Rabs s <= 1e150) ->
  (forall n : Z, q <> IZR n) ->
  let Un := norm_ppf (fsub (Fin 1) (fdiv (Fin 1) m)) in
  let sn := fdiv (Fin 1.28255) Un in
  let un := fadd Un (fdiv (Fin 0.577) Un) in
  let sd := fsqrt (fadd (np_power sigma_s (Fin 2)) (np_power sn (Fin 2))) in
  exists pc,
    IdealObs._snrenv_to_pc snrenv k (Fin q) sigma_s m = Ok pc /\
    length pc = length snrenv /\
    (forall i x, nth_error snrenv i = Some x -> x <> NInf ->
       nth_error pc i =
         Some (fmul (norm_cdf (fmul k (np_power x (Fin q))) un sd)
                 (Fin 100))) /\
    (forall i r, nth_error snrenv i = Some (Fin r) -> r < 0 ->
       nth_error pc i = Some NaN).
Proof.
  intros Hm Hs Hq Un sn un sd.
  unfold IdealObs._snrenv_to_pc. rewrite (Un_of_truthy m Hm). cbn [rbind].
  fold Un. fold sn. fold un. fold sd.
  eexists. split; [reflexivity |].
  split; [rewrite !length_map; reflexivity |].
  rewrite map_map.
  assert (E : forall i x, nth_error snrenv i = Some x ->
              nth_error
                (map (fun x0 =>
                        fmul (norm_cdf (fmul k (np_power x0 (Fin q))) un sd)
                             (Fin 100)) snrenv) i =
              Some (fmul (norm_cdf (fmul k (np_power x (Fin q))) un sd)
                         (Fin 100))).
  { intros i x Hx. rewrite nth_error_map, Hx. reflexivity. }
  split.
  - intros i x Hx _. exact (E i x Hx).
  - intros i r Hx Hr. rewrite (E i (Fin r) Hx).
    rewrite (np_power_negative r q Hr Hq), fmul_NaN_r, norm_cdf_NaN.
    reflexivity.
Qed.

Lemma negative_metric_gives_nan_witness :
  exists pc,
    IdealObs._snrenv_to_pc [Fin (-1); Fin 4] IdealObs.default_k (Fin 0.5)
      IdealObs.default_sigma_s IdealObs.default_m = Ok pc /\
    length pc = 2%nat /\
    nth_error pc 0 = Some NaN /\
    nth_error pc 1 =
      Some (fmul
              (norm_cdf (fmul IdealObs.default_k (np_power (Fin 4) (Fin 0.5)))
                 (fadd (norm_ppf (fsub (Fin 1) (fdiv (Fin 1) IdealObs.default_m)))
                    (fdiv (Fin 0.577)
                       (norm_ppf
                          (fsub (Fin 1) (fdiv (Fin 1) IdealObs.default_m)))))
                 (fsqrt
                    (fadd (np_power IdealObs.default_sigma_s (Fin 2))
                       (np_power
                          (fdiv (Fin 1.28255)
                             (norm_ppf
                                (fsub (Fin 1)
                                   (fdiv (Fin 1) IdealObs.default_m))))
                          (Fin 2)))))
              (Fin 100)).
Proof.
  destruct (negative_metric_gives_nan [Fin (-1); Fin 4] IdealObs.default_k
              IdealObs.default_sigma_s IdealObs.default_m 0.5)
    as [pc [E [L [H N]]]].
  - apply truthy_Fin. lra.
  - intros s Hs. injection Hs as <-. rewrite Rabs_pos_eq by lra. lra.
  - exact half_not_integer.
  - exists pc. split; [exact E |]. split; [exact L |]. split.
    + apply (N 0%nat (-1) eq_refl). lra.
    + apply (H 1%nat (Fin 4) eq_refl). discriminate.
Defined.

(* ================================================================= *)
(** ** The psychometric function *)

Lemma psy_fn_finite_element (x mu sigma : R) :
  sigma <> 0 ->
  fdiv (fmul (Fin 100)
          (erfc (fdiv (fneg (fsub (Fin x) (Fin mu)))
                      (fmul (fsqrt (Fin 2)) (Fin sigma)))))
       (Fin 2) =
  Fin (100 * Special.erfc (- (x - mu) / (sqrt 2 * sigma)) / 2).
Proof.
  intros Hs. pose proof SpecialFacts.sqrt2_pos as H2.
  rewrite fsqrt_Fin by lra. cbn [fsub fadd fneg fmul].
  rewrite fdiv_Fin by (apply Rmult_integral_contrapositive_currified; lra).
  cbn [erfc fmul]. rewrite fdiv_Fin by lra. reflexivity.
Qed.




(* ================================================================= *)
(** ** Fitting *)

(** [fit_obs] in one piece: [m] is put in place first, then [leastsq] runs
    on the residual function and the starting point, then its outcome is
    stored. *)
Lemma fit_obs_unfold (lmdif : optimiser) (snrenv pcdata : list float64)
    (sigma_s m : option float64) (self : Self.t) :
  IdealObs.fit_obs lmdif snrenv pcdata sigma_s m self =
  fit_store sigma_s (with_m self (fit_m m self))
    (IdealObs.leastsq lmdif (fit_residual snrenv sigma_s (fit_m m self))
       (fit_start sigma_s self) (snrenv, pcdata)).
Proof.
  destruct self as [k q s m0].
  unfold IdealObs.fit_obs, fit_store, fit_residual, fit_start, fit_m, with_m.
  unfold mbind, mret, getattr, lift, set_m, set_k, set_q, set_sigma_s.
  cbn [Self.k Self.q Self.sigma_s Self.m].
  destruct (supplied m) as [mv |]; destruct (supplied sigma_s) as [sv |];
    cbn [Self.k Self.q Self.sigma_s Self.m];
    match goal with
    | |- context [IdealObs.leastsq ?l ?f ?p ?a] =>
        destruct (IdealObs.leastsq l f p a) as [[res info] | e]
    end;
    try reflexivity;
    cbn [fst];
    repeat (destruct res as [| ? res]; try reflexivity).
Qed.

Lemma supplied_zero : supplied (Some (Fin 0)) = None.
Proof. unfold supplied. rewrite truthy_zero. reflexivity. Qed.

Lemma supplied_truthy (v : float64) :
  truthy v = true -> supplied (Some v) = Some v.
Proof. intros H. unfold supplied. rewrite H. reflexivity. Qed.

Lemma with_m_same (self : Self.t) : with_m self (Self.m self) = self.
Proof. destruct self. reflexivity. Qed.

Lemma fit_store_m (sigma_s : option float64) (self1 : Self.t)
    (r : result (list float64 * Z)) :
  Self.m (snd (fit_store sigma_s self1 r)) = Self.m self1.
Proof.
  unfold fit_store. destruct r as [[res info] | e]; [| reflexivity].
  destruct (supplied sigma_s);
    repeat (destruct res as [| ? res]; try reflexivity).
Qed.

(** [leastsq] passes on the exception of the first residual evaluation,
    whatever the optimiser is. *)
Lemma leastsq_raises (lmdif : optimiser)
    (func : list float64 -> list float64 -> list float64 ->
            result (list float64))
    (x0 : list float64) (args : list float64 * list float64) (e : exn) :
  func x0 (fst args) (snd args) = Raise e ->
  IdealObs.leastsq lmdif func x0 args = Raise e.
Proof. intros H. unfold IdealObs.leastsq. rewrite H. reflexivity. Qed.

(** [leastsq] returns what the optimiser returns for every termination code
    from 1 to 8. *)
Lemma leastsq_returns (lmdif : optimiser)
    (func : list float64 -> list float64 -> list float64 ->
            result (list float64))
    (x0 : list float64) (args : list float64 * list float64)
    (r0 x : list float64) (info : Z) :
  func x0 (fst args) (snd args) = Ok r0 ->
  (length x0 <= length r0)%nat ->
  lmdif (fun p => func p (fst args) (snd args)) x0 = Ok (x, info) ->
  (1 <= info <= 8)%Z ->
  IdealObs.leastsq lmdif func x0 args = Ok (x, info).
Proof.
  intros Hf Hlen Hopt Hinfo. unfold IdealObs.leastsq.
  rewrite Hf. cbn [rbind].
  destruct (Nat.ltb_spec (length r0) (length x0)) as [Hlt | _]; [lia |].
  rewrite Hopt. cbn [rbind snd].
  destruct (Z.leb_spec 1 info) as [_ | Hlt]; [| lia].
  destruct (Z.leb_spec info 8) as [_ | Hlt]; [| lia].
  reflexivity.
Qed.

Lemma lmdif_fixed_returns (x : list float64) (info : Z)
    (f : list float64 -> result (list float64)) (x0 r0 : list float64) :
  f x0 = Ok r0 -> lmdif_fixed x info f x0 = Ok (x, info).
Proof. intros H. unfold lmdif_fixed. rewrite H. reflexivity. Qed.

Lemma length_transform_spec (c : R) (x : list float64)
    (k q sigma_s m : float64) :
  length (transform_spec c x k q sigma_s m) = length x.
Proof. rewrite transform_spec_map. apply length_map. Qed.

Lemma length_zip_with (f : float64 -> float64 -> float64)
    (a b : list float64) :
  length a = length b -> length (zip_with f a b) = length a.
Proof.
  revert b. induction a as [| x a IH]; intros [| y b] H; simpl in *;
    try reflexivity; try discriminate.
  f_equal. apply IH. lia.
Qed.

(** Subtraction of arrays of incompatible lengths raises. *)
Lemma np_subtract_mismatch (a b : list float64) :
  length a <> length b -> length a <> 1%nat -> length b <> 1%nat ->
  np_subtract a b = Raise ValueError.
Proof.
  intros Hab Ha Hb. unfold np_subtract.
  destruct (Nat.eqb_spec (length a) (length b)) as [E | _]; [contradiction |].
  destruct a as [| x [| x' a]]; destruct b as [| y [| y' b]];
    simpl in *; try reflexivity; try contradiction; try lia.
Qed.

(** Subtraction succeeds when the lengths agree or one of them is 1; a
    length-one operand takes the length of the other. *)
Lemma np_subtract_ok (a b : list float64) :
  length a = length b \/ length b = 1%nat \/ length a = 1%nat ->
  exists r, np_subtract a b = Ok r /\
            length r = if (length b =? 1)%nat then length a else length b.
Proof.
  intros H. unfold np_subtract.
  destruct (Nat.eqb_spec (length a) (length b)) as [E | NE].
  - eexists. split; [reflexivity |]. rewrite length_zip_with by exact E.
    destruct (Nat.eqb_spec (length b) 1); lia.
  - destruct H as [H | [H | H]]; [contradiction | |].
    + destruct b as [| y [| y' b]]; try discriminate.
      destruct a as [| x [| x' a]];
        (eexists; split; [reflexivity |]); simpl; try rewrite length_map;
        reflexivity.
    + destruct a as [| x [| x' a]]; try discriminate.
      destruct b as [| y [| y' b]].
      * eexists. split; [reflexivity |]. reflexivity.
      * simpl in NE. contradiction.
      * eexists. split; [reflexivity |]. simpl. rewrite length_map.
        reflexivity.
Qed.

Lemma fit_residual_eval_start (snrenv data snr : list float64)
    (sigma_s : option float64) (m : float64) (self : Self.t) :
  truthy m = true ->
  exists k q s,
    fit_residual snrenv sigma_s m (fit_start sigma_s self) snr data =
    np_subtract (transform_spec 0.577 snrenv k q s m) data.
Proof.
  intros Hm. unfold fit_residual, fit_start.
  destruct (supplied sigma_s) as [sv |].
  - exists (Self.k self), (Self.q self), sv.
    unfold IdealObs.errfc_fixed, getitem. cbn [nth_error rbind].
    rewrite (code_is_transform_spec _ _ _ _ _ Hm). reflexivity.
  - exists (Self.k self), (Self.q self), (Self.sigma_s self).
    unfold IdealObs.errfc_free, getitem. cbn [nth_error rbind].
    rewrite (code_is_transform_spec _ _ _ _ _ Hm). reflexivity.
Qed.

(** When the optimiser returns, with any termination code from 1 to 8,
    [fit_obs] stores its point. *)
Lemma fit_obs_stores (lmdif : optimiser) (snrenv pcdata : list float64)
    (sigma_s m : option float64) (self : Self.t)
    (r0 x : list float64) (info : Z) :
  fit_residual snrenv sigma_s (fit_m m self) (fit_start sigma_s self)
    snrenv pcdata = Ok r0 ->
  (length (fit_start sigma_s self) <= length r0)%nat ->
  lmdif (fun p => fit_residual snrenv sigma_s (fit_m m self) p snrenv pcdata)
    (fit_start sigma_s self) = Ok (x, info) ->
  (1 <= info <= 8)%Z ->
  length x = length (fit_start sigma_s self) ->
  exists self',
    IdealObs.fit_obs lmdif snrenv pcdata sigma_s m self = (Ok tt, self') /\
    fit_start sigma_s self' = x /\
    Self.m self' = fit_m m self /\
    (forall s, supplied sigma_s = Some s -> Self.sigma_s self' = s).
Proof.
  intros Hres Hlen Hopt Hinfo Hx.
  rewrite fit_obs_unfold.
  rewrite (leastsq_returns lmdif _ _ (snrenv, pcdata) r0 x info Hres Hlen
             Hopt Hinfo).
  unfold fit_store, fit_start in *.
  destruct (supplied sigma_s) as [sv |].
  - destruct x as [| a [| b [| c x]]]; try discriminate.
    eexists. split; [reflexivity |]. split; [reflexivity |].
    split; [reflexivity |]. intros s E. injection E as <-. reflexivity.
  - destruct x as [| a [| b [| c [| d x]]]]; try discriminate.
    eexists. split; [reflexivity |]. split; [reflexivity |].
    split; [reflexivity |]. intros s E. discriminate.
Qed.

(** The same with the stand-in optimiser, for data the residual function
    accepts. *)
Lemma fit_obs_fixed_optimiser (x : list float64) (info : Z)
    (snrenv pcdata : list float64) (sigma_s m : option float64)
    (self : Self.t) :
  truthy (fit_m m self) = true ->
  length snrenv = length pcdata \/ length pcdata = 1%nat ->
  (3 <= length snrenv)%nat ->
  (1 <= info <= 8)%Z ->
  length x = length (fit_start sigma_s self) ->
  exists self',
    IdealObs.fit_obs (lmdif_fixed x info) snrenv pcdata sigma_s m self =
      (Ok tt, self') /\
    fit_start sigma_s self' = x /\
    Self.m self' = fit_m m self /\
    (forall s, supplied sigma_s = Some s -> Self.sigma_s self' = s).
Proof.
  intros Hm Hshape Hn Hinfo Hx.
  destruct (fit_residual_eval_start snrenv pcdata snrenv sigma_s _ self Hm)
    as [k [q [s E]]].
  destruct (np_subtract_ok (transform_spec 0.577 snrenv k q s (fit_m m self))
              pcdata) as [r0 [Er0 Hr0]].
  { rewrite length_transform_spec. tauto. }
  rewrite length_transform_spec in Hr0.
  assert (Hlen0 : length r0 = length snrenv).
  { destruct Hshape as [H | H]; rewrite H in Hr0.
    - destruct (length pcdata =? 1)%nat; lia.
    - exact Hr0. }
  rewrite Er0 in E.
  apply (fit_obs_stores _ snrenv pcdata sigma_s m self r0 x info E).
  - rewrite Hlen0. unfold fit_start. destruct (supplied sigma_s); simpl; lia.
  - apply (lmdif_fixed_returns x info _ _ r0). exact E.
  - exact Hinfo.
  - exact Hx.
Qed.

Lemma self_of_free_start (self : Self.t) (a b c m : float64) :
  fit_start None self = [a; b; c] -> Self.m self = m ->
  self = Self.mk a b c m.
Proof.
  destruct self as [k q s m0]. unfold fit_start. simpl.
  intros H <-. injection H as -> -> ->. reflexivity.
Qed.

Lemma default_m_truthy : truthy IdealObs.default_m = true.
Proof. apply truthy_Fin. lra. Qed.

(* ----------------------------------------------------------------- *)
(** *** Claims about fitting *)

(** C2, at the input where the code departs from it: [fit_obs] called with
    [sigma_s = 0.0] on the default model, with an optimiser that reports
    the point (1, 0.5, 0.7).  The free vector has three components, and
    the stored [sigma_s] is the optimiser's 0.7, not the supplied 0.0. *)
Theorem fit_zero_sigma_s_not_fixed :
  IdealObs.fit_obs (lmdif_fixed [Fin 1; Fin 0.5; Fin 0.7] 1)
    [Fin 1; Fin 2; Fin 3] [Fin 10; Fin 50; Fin 90]
    (Some (Fin 0)) None default_obs =
  (Ok tt, Self.mk (Fin 1) (Fin 0.5) (Fin 0.7) (Fin 8000)) /\
  Fin 0.7 <> Fin 0.
Proof.
  split.
  - destruct (fit_obs_fixed_optimiser [Fin 1; Fin 0.5; Fin 0.7] 1
                [Fin 1; Fin 2; Fin 3] [Fin 10; Fin 50; Fin 90]
                (Some (Fin 0)) None default_obs)
      as [self' [E [Hs [Hm _]]]].
    + exact default_m_truthy.
    + left. reflexivity.
    + simpl. lia.
    + lia.
    + unfold fit_start. rewrite supplied_zero. reflexivity.
    + rewrite E. f_equal.
      unfold fit_start in Hs. rewrite supplied_zero in Hs.
      apply (self_of_free_start self' _ _ _ _ Hs Hm).
  - intros H. injection H as H. lra.
Qed.

(** For a supplied [sigma_s] other than zero the free vector is [(k, q)] and
    the stored [sigma_s] is the supplied value, whatever the optimiser
    returns (the part of C2 the code keeps). *)
Lemma fit_nonzero_sigma_s_fixed (lmdif : optimiser)
    (snrenv pcdata : list float64) (s : float64) (m : option float64)
    (self : Self.t) (r0 x : list float64) (info : Z) :
  truthy s = true ->
  IdealObs.errfc_fixed snrenv s (fit_m m self) [Self.k self; Self.q self]
    snrenv pcdata = Ok r0 ->
  (2 <= length r0)%nat ->
  lmdif (fun p => IdealObs.errfc_fixed snrenv s (fit_m m self) p snrenv pcdata)
    [Self.k self; Self.q self] = Ok (x, info) ->
  (1 <= info <= 8)%Z ->
  length x = 2%nat ->
  exists res_k res_q,
    x = [res_k; res_q] /\
    IdealObs.fit_obs lmdif snrenv pcdata (Some s) m self =
    (Ok tt, Self.mk res_k res_q s (fit_m m self)).
Proof.
  intros Hs Hres Hlen Hopt Hinfo Hx.
  destruct (fit_obs_stores lmdif snrenv pcdata (Some s) m self r0 x info)
    as [self' [E [Hst [Hm Hsig]]]];
    unfold fit_residual, fit_start in *;
    rewrite ?(supplied_truthy s Hs) in *; try assumption.
  destruct self' as [k' q' s' m']. simpl in *.
  exists k', q'. split; [symmetry; exact Hst |].
  rewrite E, Hm, (Hsig s eq_refl). reflexivity.
Qed.

(** C3 (as amended): [fit_obs] makes no convergence check.  Whenever the
    optimiser returns a point of the length of the free vector, with any
    termination code from 1 to 8 (5 to 8 report that it did not converge)
    and any values (finite or not), [fit_obs] returns normally and the
    model holds that point; no convergence error is raised. *)
Theorem fit_makes_no_convergence_check (lmdif : optimiser)
    (snrenv pcdata : list float64) (sigma_s m : option float64)
    (self : Self.t) (r0 x : list float64) (info : Z) :
  fit_residual snrenv sigma_s (fit_m m self) (fit_start sigma_s self)
    snrenv pcdata = Ok r0 ->
  (length (fit_start sigma_s self) <= length r0)%nat ->
  lmdif (fun p => fit_residual snrenv sigma_s (fit_m m self) p snrenv pcdata)
    (fit_start sigma_s self) = Ok (x, info) ->
  (1 <= info <= 8)%Z ->
  length x = length (fit_start sigma_s self) ->
  exists self',
    IdealObs.fit_obs lmdif snrenv pcdata sigma_s m self = (Ok tt, self') /\
    fit_start sigma_s self' = x /\
    Self.m self' = fit_m m self /\
    (forall s, supplied sigma_s = Some s -> Self.sigma_s self' = s).
Proof. apply fit_obs_stores. Qed.

Lemma fit_makes_no_convergence_check_witness :
  exists self',
    IdealObs.fit_obs (lmdif_fixed [PInf; Fin 0.5; NaN] 7)
      [Fin 1; Fin 2; Fin 3] [Fin 10; Fin 50; Fin 90] None None default_obs
    = (Ok tt, self') /\
    fit_start None self' = [PInf; Fin 0.5; NaN] /\
    Self.m self' = fit_m None default_obs /\
    (forall s, supplied None = Some s -> Self.sigma_s self' = s).
Proof.
  destruct (fit_residual_eval_start [Fin 1; Fin 2; Fin 3]
              [Fin 10; Fin 50; Fin 90] [Fin 1; Fin 2; Fin 3] None
              (fit_m None default_obs) default_obs default_m_truthy)
    as [k [q [s E]]].
  destruct (np_subtract_ok
              (transform_spec 0.577 [Fin 1; Fin 2; Fin 3] k q s
                 (fit_m None default_obs))
              [Fin 10; Fin 50; Fin 90]) as [r0 [Er0 Hr0]].
  { left. rewrite length_transform_spec. reflexivity. }
  rewrite Er0 in E. simpl in Hr0.
  apply (fit_makes_no_convergence_check (lmdif_fixed [PInf; Fin 0.5; NaN] 7)
           [Fin 1; Fin 2; Fin 3] [Fin 10; Fin 50; Fin 90] None None
           default_obs r0 [PInf; Fin 0.5; NaN] 7 E).
  - rewrite Hr0. simpl. lia.
  - apply (lmdif_fixed_returns _ _ _ _ r0 E).
  - lia.
  - reflexivity.
Defined.

(** C3 as the specification states it fails: the optimiser reports code 5
    (the limit of function evaluations was reached: no convergence) and a
    point of not-a-numbers, and [fit_obs] returns normally with that point
    stored in the model. *)
Lemma fit_stores_unconverged_nan :
  IdealObs.fit_obs (lmdif_fixed [NaN; NaN; NaN] 5)
    [Fin 1; Fin 2; Fin 3] [Fin 10; Fin 50; Fin 90] None None default_obs =
  (Ok tt, Self.mk NaN NaN NaN (Fin 8000)).
Proof.
  destruct (fit_obs_fixed_optimiser [NaN; NaN; NaN] 5
              [Fin 1; Fin 2; Fin 3] [Fin 10; Fin 50; Fin 90]
              None None default_obs)
    as [self' [E [Hs [Hm _]]]].
  - exact default_m_truthy.
  - left. reflexivity.
  - simpl. lia.
  - lia.
  - reflexivity.
  - rewrite E. f_equal. apply (self_of_free_start self' _ _ _ _ Hs Hm).
Qed.

(** When the lengths differ and neither is 1, the first residual evaluation
    raises, and so does [fit_obs], with [m] already in place. *)
Lemma fit_obs_mismatch (lmdif : optimiser) (snrenv pcdata : list float64)
    (sigma_s m : option float64) (self : Self.t) :
  truthy (fit_m m self) = true ->
  length snrenv <> length pcdata ->
  length snrenv <> 1%nat -> length pcdata <> 1%nat ->
  IdealObs.fit_obs lmdif snrenv pcdata sigma_s m self =
  (Raise ValueError, with_m self (fit_m m self)).
Proof.
  intros Hm Hne Hs Hp. rewrite fit_obs_unfold.
  rewrite (leastsq_raises lmdif _ _ (snrenv, pcdata) ValueError);
    [reflexivity |].
  cbn [fst snd].
  destruct (fit_residual_eval_start snrenv pcdata snrenv sigma_s _ self Hm)
    as [k [q [s E]]].
  rewrite E. apply np_subtract_mismatch; rewrite ?length_transform_spec;
    assumption.
Qed.

(** Broadcasting: subtracting a one-element array is subtracting its element
    repeated to the length of the other array, on either side. *)
Lemma zip_with_repeat_r (a : list float64) (y : float64) :
  zip_with fsub a (repeat y (length a)) = map (fun x => fsub x y) a.
Proof. induction a as [| x a IH]; simpl; [reflexivity | rewrite IH; reflexivity]. Qed.

Lemma zip_with_repeat_l (x : float64) (b : list float64) :
  zip_with fsub (repeat x (length b)) b = map (fun y => fsub x y) b.
Proof. induction b as [| y b IH]; simpl; [reflexivity | rewrite IH; reflexivity]. Qed.

Lemma np_subtract_broadcast_r (a : list float64) (y : float64) :
  np_subtract a [y] = np_subtract a (repeat y (length a)).
Proof.
  unfold np_subtract. rewrite repeat_length, Nat.eqb_refl, zip_with_repeat_r.
  destruct a as [| x [| x' a]]; reflexivity.
Qed.

Lemma np_subtract_broadcast_l (x : float64) (b : list float64) :
  np_subtract [x] b = np_subtract (repeat x (length b)) b.
Proof.
  unfold np_subtract. rewrite repeat_length, Nat.eqb_refl, zip_with_repeat_l.
  destruct b as [| y [| y' b]]; reflexivity.
Qed.

Lemma snrenv_to_pc_length (x pc : list float64) (k q sigma_s m : float64) :
  IdealObs._snrenv_to_pc x k q sigma_s m = Ok pc -> length pc = length x.
Proof.
  unfold IdealObs._snrenv_to_pc.
  destruct (IdealObs.Un_of m) as [Un | e]; cbn [rbind]; [| discriminate].
  intros H. apply Ok_inj in H. subst pc. rewrite !length_map. reflexivity.
Qed.

(** The transform of a repeated metric value is its transform, repeated. *)
Lemma snrenv_to_pc_repeat (x : float64) (n : nat) (k q sigma_s m : float64) :
  IdealObs._snrenv_to_pc (repeat x n) k q sigma_s m =
  match IdealObs._snrenv_to_pc [x] k q sigma_s m with
  | Ok [t] => Ok (repeat t n)
  | Ok _ => Ok []
  | Raise e => Raise e
  end.
Proof.
  unfold IdealObs._snrenv_to_pc.
  destruct (IdealObs.Un_of m) as [Un | e]; cbn [rbind map]; [| reflexivity].
  rewrite !map_repeat. reflexivity.
Qed.

(** [leastsq] depends on the residual function through its values only. *)
Lemma leastsq_ext (lmdif : optimiser)
    (func1 func2 : list float64 -> list float64 -> list float64 ->
                   result (list float64))
    (x0 : list float64) (args1 args2 : list float64 * list float64) :
  (forall p, func1 p (fst args1) (snd args1) =
             func2 p (fst args2) (snd args2)) ->
  IdealObs.leastsq lmdif func1 x0 args1 = IdealObs.leastsq lmdif func2 x0 args2.
Proof.
  intros H. unfold IdealObs.leastsq.
  assert (E : (fun p => func1 p (fst args1) (snd args1)) =
              (fun p => func2 p (fst args2) (snd args2)))
    by (apply functional_extensionality; exact H).
  rewrite E, (H x0). reflexivity.
Qed.

Lemma fit_residual_broadcast_data (snrenv snr snr' : list float64)
    (sigma_s : option float64) (m y : float64) (p : list float64) :
  fit_residual snrenv sigma_s m p snr [y] =
  fit_residual snrenv sigma_s m p snr' (repeat y (length snrenv)).
Proof.
  unfold fit_residual, IdealObs.errfc_fixed, IdealObs.errfc_free.
  destruct (supplied sigma_s) as [s |];
    repeat (match goal with
            | |- context [getitem ?l ?i] =>
                destruct (getitem l i); cbn [rbind]; [| reflexivity]
            end);
    match goal with
    | |- context [IdealObs._snrenv_to_pc ?x ?a ?b ?c ?d] =>
        destruct (IdealObs._snrenv_to_pc x a b c d) as [pc | e] eqn:E;
        cbn [rbind]; [| reflexivity]
    end;
    rewrite <- (snrenv_to_pc_length _ _ _ _ _ _ E);
    apply np_subtract_broadcast_r.
Qed.

Lemma fit_residual_broadcast_metric (x : float64) (data snr snr' : list float64)
    (sigma_s : option float64) (m : float64) (p : list float64) :
  fit_residual [x] sigma_s m p snr data =
  fit_residual (repeat x (length data)) sigma_s m p snr' data.
Proof.
  unfold fit_residual, IdealObs.errfc_fixed, IdealObs.errfc_free.
  destruct (supplied sigma_s) as [s |];
    repeat (match goal with
            | |- context [getitem ?l ?i] =>
                destruct (getitem l i); cbn [rbind]; [| reflexivity]
            end);
    rewrite snrenv_to_pc_repeat;
    match goal with
    | |- context [IdealObs._snrenv_to_pc [x] ?a ?b ?c ?d] =>
        destruct (IdealObs._snrenv_to_pc [x] a b c d) as [pc | e] eqn:E;
        cbn [rbind]; [| reflexivity]
    end;
    pose proof (snrenv_to_pc_length _ _ _ _ _ _ E) as L;
    destruct pc as [| t [| t' pc]]; try discriminate L;
    cbn [rbind]; apply np_subtract_broadcast_l.
Qed.

(** C5 (as amended): [fit_obs] makes no length check of its own; the
    residual is formed by numpy's broadcasting subtraction.  For sequences
    of unequal length (a vocabulary size other than zero, and a supplied
    finite [sigma_s] of at most 10^150 in magnitude, whose square does not
    overflow): when neither length is 1, the first residual evaluation,
    which [leastsq] makes before the optimiser runs, raises [ValueError],
    and [fit_obs] ends with it whatever the optimiser is, with [k], [q] and
    [sigma_s] untouched and a supplied [m] already stored; when one of the
    sequences has length 1 it is broadcast: [fit_obs] is exactly the fit
    with that one value repeated to the length of the other sequence, with
    the same result and the same errors. *)
Theorem fit_length_mismatch (lmdif : optimiser) (snrenv pcdata : list float64)
    (sigma_s m : option float64) (self : Self.t) :
  truthy (fit_m m self) = true ->
  (forall s, supplied sigma_s = Some (Fin s) -> Rabs s <= 1e150) ->
  length snrenv <> length pcdata ->
  (length snrenv <> 1%nat -> length pcdata <> 1%nat ->
   IdealObs.fit_obs lmdif snrenv pcdata sigma_s m self =
   (Raise ValueError, with_m self (fit_m m self))) /\
  (forall y, pcdata = [y] ->
   IdealObs.fit_obs lmdif snrenv pcdata sigma_s m self =
   IdealObs.fit_obs lmdif snrenv (repeat y (length snrenv)) sigma_s m self) /\
  (forall x, snrenv = [x] ->
   IdealObs.fit_obs lmdif snrenv pcdata sigma_s m self =
   IdealObs.fit_obs lmdif (repeat x (length pcdata)) pcdata sigma_s m self).
Proof.
  intros Hm Hs Hne. split; [| split].
  - intros H1 H2. apply fit_obs_mismatch; assumption.
  - intros y ->. rewrite !fit_obs_unfold. f_equal.
    apply leastsq_ext. intros p. cbn [fst snd].
    apply fit_residual_broadcast_data.
  - intros x ->. rewrite !fit_obs_unfold. f_equal.
    apply leastsq_ext. intros p. cbn [fst snd].
    apply fit_residual_broadcast_metric.
Qed.

Lemma fit_length_mismatch_witness :
  IdealObs.fit_obs (lmdif_fixed [Fin 1; Fin 0.5] 1)
    [Fin 1; Fin 2; Fin 3; Fin 4; Fin 5] [Fin 10; Fin 20; Fin 30; Fin 40]
    (Some (Fin 0.5)) (Some (Fin 10)) default_obs =
  (Raise ValueError,
   Self.mk IdealObs.default_k IdealObs.default_q IdealObs.default_sigma_s
           (Fin 10)) /\
  IdealObs.fit_obs (lmdif_fixed [Fin 1; Fin 0.5] 1)
    [Fin 1; Fin 2; Fin 3] [Fin 50] (Some (Fin 0.5)) (Some (Fin 10))
    default_obs =
  IdealObs.fit_obs (lmdif_fixed [Fin 1; Fin 0.5] 1)
    [Fin 1; Fin 2; Fin 3] [Fin 50; Fin 50; Fin 50] (Some (Fin 0.5))
    (Some (Fin 10)) default_obs.
Proof.
  assert (Hm : fit_m (Some (Fin 10)) default_obs = Fin 10).
  { unfold fit_m. rewrite supplied_truthy by (apply truthy_Fin; lra).
    reflexivity. }
  assert (Ht : truthy (fit_m (Some (Fin 10)) default_obs) = true).
  { rewrite Hm. apply truthy_Fin. lra. }
  assert (Hs : forall s, supplied (Some (Fin 0.5)) = Some (Fin s) ->
                         Rabs s <= 1e150).
  { intros s E. rewrite supplied_truthy in E by (apply truthy_Fin; lra).
    injection E as <-. rewrite Rabs_pos_eq by lra. lra. }
  split.
  - pose proof (proj1 (fit_length_mismatch
                         (lmdif_fixed [Fin 1; Fin 0.5] 1)
                         [Fin 1; Fin 2; Fin 3; Fin 4; Fin 5]
                         [Fin 10; Fin 20; Fin 30; Fin 40]
                         (Some (Fin 0.5)) (Some (Fin 10)) default_obs Ht Hs
                         ltac:(simpl; lia))
                  ltac:(simpl; lia) ltac:(simpl; lia)) as H.
    rewrite Hm in H. exact H.
  - exact (proj1 (proj2 (fit_length_mismatch
                           (lmdif_fixed [Fin 1; Fin 0.5] 1)
                           [Fin 1; Fin 2; Fin 3] [Fin 50]
                           (Some (Fin 0.5)) (Some (Fin 10)) default_obs Ht Hs
                           ltac:(simpl; lia)))
                 (Fin 50) eq_refl).
Defined.

(** C5 as the specification states it fails: a metric of length 3 and
    observations of length 1 have unequal lengths, and [fit_obs] raises
    nothing: the single observation is broadcast, and the optimiser's point
    is stored. *)
Lemma fit_accepts_unequal_lengths :
  length [Fin 1; Fin 2; Fin 3] <> length [Fin 50] /\
  IdealObs.fit_obs (lmdif_fixed [Fin 1; Fin 0.5; Fin 0.7] 1)
    [Fin 1; Fin 2; Fin 3] [Fin 50] None None default_obs =
  (Ok tt, Self.mk (Fin 1) (Fin 0.5) (Fin 0.7) (Fin 8000)).
Proof.
  split; [simpl; lia |].
  destruct (fit_obs_fixed_optimiser [Fin 1; Fin 0.5; Fin 0.7] 1
              [Fin 1; Fin 2; Fin 3] [Fin 50] None None default_obs)
    as [self' [E [Hs [Hm _]]]].
  - exact default_m_truthy.
  - right. reflexivity.
  - simpl. lia.
  - lia.
  - reflexivity.
  - rewrite E. f_equal. apply (self_of_free_start self' _ _ _ _ Hs Hm).
Qed.

(** C7: when [fit_obs] is called with [m] supplied ([m > 1]), the supplied
    value replaces the model's [m]; the fit is [leastsq] run on a residual
    function that, at every point the optimiser tries, is the transform
    with that [m] (and the free parameters of the point) minus the
    observations, so that [m] is the same in every evaluation of the fit;
    and the value is in the model afterwards, however the fit ends.  When
    [m] is not supplied, the same holds with the model's own [m], which is
    unchanged afterwards. *)
Theorem fit_m_argument (lmdif : optimiser) (snrenv pcdata : list float64)
    (sigma_s : option float64) (mv : float64) (self : Self.t) :
  fltb (Fin 1) mv = true ->
  IdealObs.fit_obs lmdif snrenv pcdata sigma_s (Some mv) self =
    fit_store sigma_s (with_m self mv)
      (IdealObs.leastsq lmdif (fit_residual snrenv sigma_s mv)
         (fit_start sigma_s self) (snrenv, pcdata)) /\
  Self.m (snd (IdealObs.fit_obs lmdif snrenv pcdata sigma_s (Some mv) self))
    = mv /\
  IdealObs.fit_obs lmdif snrenv pcdata sigma_s None self =
    fit_store sigma_s self
      (IdealObs.leastsq lmdif (fit_residual snrenv sigma_s (Self.m self))
         (fit_start sigma_s self) (snrenv, pcdata)) /\
  Self.m (snd (IdealObs.fit_obs lmdif snrenv pcdata sigma_s None self))
    = Self.m self /\
  (forall m0 p_k p_q p_sigma_s rest snr data,
      supplied sigma_s = None ->
      fit_residual snrenv sigma_s m0 (p_k :: p_q :: p_sigma_s :: rest)
        snr data =
      (pc <- IdealObs._snrenv_to_pc snrenv p_k p_q p_sigma_s m0 ;;
       np_subtract pc data)%result) /\
  (forall m0 s p_k p_q rest snr data,
      supplied sigma_s = Some s ->
      fit_residual snrenv sigma_s m0 (p_k :: p_q :: rest) snr data =
      (pc <- IdealObs._snrenv_to_pc snrenv p_k p_q s m0 ;;
       np_subtract pc data)%result).
Proof.
  intros Hm.
  assert (E1 : fit_m (Some mv) self = mv).
  { unfold fit_m. rewrite (supplied_truthy mv (gt1_truthy mv Hm)).
    reflexivity. }
  assert (E2 : fit_m None self = Self.m self) by reflexivity.
  rewrite !fit_obs_unfold, E1, E2, with_m_same, !fit_store_m.
  repeat split; try reflexivity.
  - intros m0 p_k p_q p_s rest snr data E. unfold fit_residual. rewrite E.
    reflexivity.
  - intros m0 s p_k p_q rest snr data E. unfold fit_residual. rewrite E.
    reflexivity.
Qed.

Lemma fit_m_argument_witness :
  Self.m (snd (IdealObs.fit_obs (lmdif_fixed [Fin 1; Fin 0.5] 1)
                 [Fin 1; Fin 2; Fin 3] [Fin 10; Fin 50; Fin 90]
                 (Some (Fin 0.5)) (Some (Fin 100)) default_obs))
    = Fin 100 /\
  Self.m (snd (IdealObs.fit_obs (lmdif_fixed [Fin 1; Fin 0.5] 1)
                 [Fin 1; Fin 2; Fin 3] [Fin 10; Fin 50; Fin 90]
                 (Some (Fin 0.5)) None default_obs))
    = Self.m default_obs /\
  IdealObs.fit_obs (lmdif_fixed [Fin 1; Fin 0.5] 1) [Fin 1; Fin 2; Fin 3]
      [Fin 10; Fin 50; Fin 90] (Some (Fin 0.5)) (Some (Fin 100)) default_obs =
    fit_store (Some (Fin 0.5)) (with_m default_obs (Fin 100))
      (IdealObs.leastsq (lmdif_fixed [Fin 1; Fin 0.5] 1)
         (fit_residual [Fin 1; Fin 2; Fin 3] (Some (Fin 0.5)) (Fin 100))
         (fit_start (Some (Fin 0.5)) default_obs)
         ([Fin 1; Fin 2; Fin 3], [Fin 10; Fin 50; Fin 90])) /\
  fit_residual [Fin 1; Fin 2; Fin 3] (Some (Fin 0.5)) (Fin 100)
    [Fin 1; Fin 0.5] [Fin 1; Fin 2; Fin 3] [Fin 10; Fin 50; Fin 90] =
  (pc <- IdealObs._snrenv_to_pc [Fin 1; Fin 2; Fin 3] (Fin 1) (Fin 0.5)
           (Fin 0.5) (Fin 100) ;;
   np_subtract pc [Fin 10; Fin 50; Fin 90])%result.
Proof.
  destruct (fit_m_argument (lmdif_fixed [Fin 1; Fin 0.5] 1)
              [Fin 1; Fin 2; Fin 3] [Fin 10; Fin 50; Fin 90]
              (Some (Fin 0.5)) (Fin 100) default_obs)
    as [H1 [H2 [_ [H4 [_ H6]]]]].
  - apply fltb_Fin. lra.
  - split; [exact H2 |]. split; [exact H4 |]. split; [exact H1 |].
    apply H6. apply supplied_truthy, truthy_Fin. lra.
Defined.

(** C10: [fit_obs] tests its optional arguments by their truth value.  A
    call with [sigma_s = 0.0] is the call with [sigma_s] omitted, and a call
    with [m = 0] is the call with [m] omitted; with both, the free vector is
    [(k, q, sigma_s)] starting from the model's values, the residual
    function is built with the model's [m], the stored [sigma_s] is the
    optimiser's third component, and [m] is unchanged. *)
Theorem fit_falsy_arguments (lmdif : optimiser) (snrenv pcdata : list float64)
    (sigma_s m : option float64) (self : Self.t) :
  IdealObs.fit_obs lmdif snrenv pcdata (Some (Fin 0)) m self =
    IdealObs.fit_obs lmdif snrenv pcdata None m self /\
  IdealObs.fit_obs lmdif snrenv pcdata sigma_s (Some (Fin 0)) self =
    IdealObs.fit_obs lmdif snrenv pcdata sigma_s None self /\
  IdealObs.fit_obs lmdif snrenv pcdata (Some (Fin 0)) (Some (Fin 0)) self =
    match
      IdealObs.leastsq lmdif (IdealObs.errfc_free snrenv (Self.m self))
        [Self.k self; Self.q self; Self.sigma_s self] (snrenv, pcdata)
    with
    | Ok ([res_k; res_q; res_sigma_s], _) =>
        (Ok tt, Self.mk res_k res_q res_sigma_s (Self.m self))
    | Ok _ => (Raise ValueError, self)
    | Raise e => (Raise e, self)
    end.
Proof.
  split; [| split].
  - rewrite !fit_obs_unfold. unfold fit_store, fit_residual, fit_start.
    rewrite supplied_zero. reflexivity.
  - rewrite !fit_obs_unfold. unfold fit_m. rewrite supplied_zero.
    reflexivity.
  - rewrite fit_obs_unfold.
    unfold fit_store, fit_residual, fit_start, fit_m.
    rewrite supplied_zero. cbn beta iota. rewrite with_m_same.
    destruct (IdealObs.leastsq _ _ _ _) as [[res info] | e]; [| reflexivity].
    repeat (destruct res as [| ? res]; try reflexivity).
Qed.

(* ----------------------------------------------------------------- *)
(** *** Construction *)

(** C4 (as amended): construction makes no validation and never fails: for
    all values, those with [m <= 1] or [sigma_s < 0] included, it stores the
    values given and the defaults [sqrt 1.2], 0.5, 0.6 and 8000 for those
    not given, and [get_params] returns them; [fit_obs] likewise rejects no
    value: a supplied [m] other than zero is stored as it is. *)
Theorem init_stores_without_validation
    (k q sigma_s m : option float64) (lmdif : optimiser)
    (snrenv pcdata : list float64) (s : option float64) (mv : float64)
    (self : Self.t) :
  truthy mv = true ->
  (exists obs,
     IdealObs.__init__ k q sigma_s m = Ok obs /\
     Self.k obs = IdealObs.or_default k (Fin (sqrt 1.2)) /\
     Self.q obs = IdealObs.or_default q (Fin 0.5) /\
     Self.sigma_s obs = IdealObs.or_default sigma_s (Fin 0.6) /\
     Self.m obs = IdealObs.or_default m (Fin 8000) /\
     IdealObs.get_params obs =
       [("k"%string, Self.k obs); ("q"%string, Self.q obs);
        ("sigma_s"%string, Self.sigma_s obs); ("m"%string, Self.m obs)]) /\
  Self.m (snd (IdealObs.fit_obs lmdif snrenv pcdata s (Some mv) self)) = mv.
Proof.
  intros Hm. split.
  - eexists. split; [reflexivity |]. repeat split; reflexivity.
  - rewrite fit_obs_unfold, fit_store_m. unfold fit_m.
    rewrite (supplied_truthy mv Hm). reflexivity.
Qed.

Lemma init_stores_without_validation_witness :
  (exists obs,
     IdealObs.__init__ None None (Some (Fin (-1))) (Some (Fin 1)) = Ok obs /\
     Self.k obs = Fin (sqrt 1.2) /\
     Self.q obs = Fin 0.5 /\
     Self.sigma_s obs = Fin (-1) /\
     Self.m obs = Fin 1 /\
     IdealObs.get_params obs =
       [("k"%string, Self.k obs); ("q"%string, Self.q obs);
        ("sigma_s"%string, Self.sigma_s obs); ("m"%string, Self.m obs)]) /\
  Self.m (snd (IdealObs.fit_obs (lmdif_fixed [Fin 1; Fin 0.5; Fin 0.6] 1)
                 [Fin 1; Fin 2; Fin 3] [Fin 10; Fin 50; Fin 90]
                 None (Some (Fin 0.5)) default_obs)) = Fin 0.5.
Proof.
  apply (init_stores_without_validation None None (Some (Fin (-1)))
           (Some (Fin 1)) (lmdif_fixed [Fin 1; Fin 0.5; Fin 0.6] 1)
           [Fin 1; Fin 2; Fin 3] [Fin 10; Fin 50; Fin 90] None (Fin 0.5)
           default_obs).
  apply truthy_Fin. lra.
Defined.

(** C4 as the specification states it fails: construction with [m = 1]
    (and with [sigma_s = -1]) succeeds. *)
Lemma init_accepts_invalid :
  1 <= 1 /\ -1 < 0 /\
  IdealObs.__init__ None None (Some (Fin (-1))) (Some (Fin 1)) =
  Ok (Self.mk (Fin (sqrt 1.2)) (Fin 0.5) (Fin (-1)) (Fin 1)).
Proof. repeat split; try lra. Qed.

(* ================================================================= *)
(** ** Further properties of the transform *)

Lemma fmul_neg_neg (s : float64) : fmul (fneg s) (fneg s) = fmul s s.
Proof. destruct s; simpl; try reflexivity. f_equal. ring. Qed.

(** X2: the transform depends on [sigma_s] through its square only: the
    negated [sigma_s] gives the same result, for all arguments. *)
Theorem transform_sigma_s_sign (snrenv : list float64)
    (k q sigma_s m : float64) :
  IdealObs._snrenv_to_pc snrenv k q (fneg sigma_s) m =
  IdealObs._snrenv_to_pc snrenv k q sigma_s m.
Proof.
  unfold IdealObs._snrenv_to_pc.
  rewrite !np_power_2, fmul_neg_neg. reflexivity.
Qed.

(** On non-negative finite metric values every element of the transform is
    finite, in the regular case. *)
Lemma transform_spec_finite (c k q sigma_s m : R) (xs : list R) :
  0 < q -> 1 < m -> Special.ndtri (1 - 1 / m) <> 0 ->
  Forall (fun x => 0 <= x) xs ->
  exists vs,
    transform_spec c (map Fin xs) (Fin k) (Fin q) (Fin sigma_s) (Fin m) =
    map Fin vs /\ length vs = length xs.
Proof.
  intros Hq Hm HU Hxs.
  rewrite (transform_spec_regular c k sigma_s m (Fin q) _ Hm HU).
  pose proof (sd_of_pos _ sigma_s HU) as Hsd.
  induction Hxs as [| x xs Hx _ IH].
  - exists []. split; reflexivity.
  - destruct IH as [vs [E L]].
    destruct (np_power_nonneg x q Hq Hx) as [p [Ep _]].
    rewrite !map_cons, E, Ep.
    change (fmul (Fin k) (Fin p)) with (Fin (k * p)).
    rewrite norm_cdf_Fin by exact Hsd.
    eexists (_ :: vs). split; [reflexivity |]. simpl. rewrite L. reflexivity.
Qed.

Lemma zip_with_fsub_self (vs : list R) :
  zip_with fsub (map Fin vs) (map Fin vs) = map (fun _ => Fin 0) vs.
Proof.
  induction vs as [| v vs IH]; [reflexivity |].
  cbn [map zip_with fsub fneg fadd]. rewrite IH. f_equal. f_equal. ring.
Qed.

Lemma map_const_length {A B : Type} (b : B) (l1 l2 : list A) :
  length l1 = length l2 ->
  map (fun _ => b) l1 = map (fun _ => b) l2.
Proof.
  revert l2. induction l1 as [| x l1 IH]; intros [| y l2] H;
    simpl in *; try reflexivity; try discriminate.
  f_equal. apply IH. lia.
Qed.

(* ================================================================= *)
(** ** Further properties of fitting *)

(** X6: data the model generates itself are fitted exactly by the
    generating parameters.  For non-negative finite metric values, a finite
    [k] other than zero, [q > 0], a finite [sigma_s] of magnitude at most
    10^150 and a finite [m] with [1 < m <= 10^15] and of non-zero quantile,
    the transform returns finite values, and on these as observations both
    residual functions of [fit_obs] are zero in every component at the
    generating parameters. *)
Theorem residual_zero_at_generating_parameters
    (xs : list R) (k q sigma_s m : R) (snr : list float64) :
  k <> 0 -> 0 < q -> Rabs sigma_s <= 1e150 -> 1 < m <= 1e15 ->
  Special.ndtri (1 - 1 / m) <> 0 ->
  Forall (fun x => 0 <= x) xs ->
  exists pc,
    IdealObs._snrenv_to_pc (map Fin xs) (Fin k) (Fin q) (Fin sigma_s) (Fin m)
      = Ok pc /\
    IdealObs.errfc_free (map Fin xs) (Fin m)
      [Fin k; Fin q; Fin sigma_s] snr pc = Ok (map (fun _ => Fin 0) xs) /\
    IdealObs.errfc_fixed (map Fin xs) (Fin sigma_s) (Fin m)
      [Fin k; Fin q] snr pc = Ok (map (fun _ => Fin 0) xs).
Proof.
  intros Hk Hq Hs [Hm Hmax] HU Hxs.
  assert (Ht : truthy (Fin m) = true) by (apply truthy_Fin; lra).
  destruct (transform_spec_finite 0.577 k q sigma_s m xs Hq Hm HU Hxs)
    as [vs [E L]].
  assert (Hsub : np_subtract (map Fin vs) (map Fin vs) =
                 Ok (map (fun _ => Fin 0) xs)).
  { unfold np_subtract. rewrite Nat.eqb_refl, zip_with_fsub_self.
    f_equal. apply map_const_length. exact L. }
  exists (map Fin vs).
  rewrite (code_is_transform_spec _ _ _ _ _ Ht), E.
  split; [reflexivity |].
  unfold IdealObs.errfc_free, IdealObs.errfc_fixed, getitem.
  cbn [nth_error rbind].
  rewrite (code_is_transform_spec _ _ _ _ _ Ht), E. cbn [rbind].
  split; exact Hsub.
Qed.

Lemma residual_zero_at_generating_parameters_witness :
  exists pc,
    IdealObs._snrenv_to_pc (map Fin [0; 1; 10]) (Fin 1) (Fin 0.5) (Fin 0.5)
      (Fin 3) = Ok pc /\
    IdealObs.errfc_free (map Fin [0; 1; 10]) (Fin 3)
      [Fin 1; Fin 0.5; Fin 0.5] [] pc = Ok (map (fun _ => Fin 0) [0; 1; 10]) /\
    IdealObs.errfc_fixed (map Fin [0; 1; 10]) (Fin 0.5) (Fin 3)
      [Fin 1; Fin 0.5] [] pc = Ok (map (fun _ => Fin 0) [0; 1; 10]).
Proof.
  apply (residual_zero_at_generating_parameters [0; 1; 10] 1 0.5 0.5 3 []).
  - lra.
  - lra.
  - rewrite Rabs_pos_eq by lra. lra.
  - lra.
  - exact quantile_of_three.
  - repeat constructor; lra.
Defined.

(** X7: a failed fit leaves the parameters alone.  Whenever [fit_obs]
    raises, [k], [q] and [sigma_s] are what they were before the call; only
    [m] is replaced, when it was supplied. *)
Theorem fit_failure_keeps_parameters (lmdif : optimiser)
    (snrenv pcdata : list float64) (sigma_s m : option float64)
    (self self' : Self.t) (e : exn) :
  IdealObs.fit_obs lmdif snrenv pcdata sigma_s m self = (Raise e, self') ->
  Self.k self' = Self.k self /\
  Self.q self' = Self.q self /\
  Self.sigma_s self' = Self.sigma_s self /\
  Self.m self' = fit_m m self.
Proof.
  rewrite fit_obs_unfold. unfold fit_store.
  destruct (IdealObs.leastsq _ _ _ _) as [[res info] | e0].
  - destruct (supplied sigma_s);
      destruct res as [| r1 [| r2 [| r3 [| r4 res]]]];
      intros H; try discriminate H;
      injection H as _ <-; repeat split; reflexivity.
  - intros H. injection H as _ <-. repeat split; reflexivity.
Qed.

Lemma fit_failure_keeps_parameters_witness :
  Self.k (Self.mk IdealObs.default_k IdealObs.default_q
            IdealObs.default_sigma_s (Fin 10)) = Self.k default_obs /\
  Self.q (Self.mk IdealObs.default_k IdealObs.default_q
            IdealObs.default_sigma_s (Fin 10)) = Self.q default_obs /\
  Self.sigma_s (Self.mk IdealObs.default_k IdealObs.default_q
                  IdealObs.default_sigma_s (Fin 10))
    = Self.sigma_s default_obs /\
  Self.m (Self.mk IdealObs.default_k IdealObs.default_q
            IdealObs.default_sigma_s (Fin 10))
    = fit_m (Some (Fin 10)) default_obs.
Proof.
  assert (Hm : fit_m (Some (Fin 10)) default_obs = Fin 10).
  { unfold fit_m. rewrite supplied_truthy by (apply truthy_Fin; lra).
    reflexivity. }
  assert (Ht : truthy (fit_m (Some (Fin 10)) default_obs) = true).
  { rewrite Hm. apply truthy_Fin. lra. }
  pose proof (fit_obs_mismatch (lmdif_fixed [Fin 1; Fin 0.5; Fin 0.6] 1)
                [Fin 1; Fin 2; Fin 3; Fin 4; Fin 5]
                [Fin 10; Fin 20; Fin 30; Fin 40]
                None (Some (Fin 10)) default_obs Ht
                ltac:(simpl; lia) ltac:(simpl; lia) ltac:(simpl; lia)) as H.
  rewrite Hm in H.
  exact (fit_failure_keeps_parameters _ _ _ _ _ _ _ _ H).
Defined.

(** X8: fewer observations than free parameters.  When the metric and the
    observations have the same length and it is below the number of free
    parameters (three, or two when [sigma_s] is held fixed, a supplied
    finite [sigma_s] being of magnitude at most 10^150), [fit_obs] raises
    [TypeError] whatever the optimiser is, with [k], [q] and [sigma_s]
    untouched; empty data are the case of length zero. *)
Theorem fit_too_few_observations (lmdif : optimiser)
    (snrenv pcdata : list float64) (sigma_s m : option float64)
    (self : Self.t) :
  truthy (fit_m m self) = true ->
  (forall s, supplied sigma_s = Some (Fin s) -> Rabs s <= 1e150) ->
  length snrenv = length pcdata ->
  (length snrenv < length (fit_start sigma_s self))%nat ->
  IdealObs.fit_obs lmdif snrenv pcdata sigma_s m self =
  (Raise TypeError, with_m self (fit_m m self)).
Proof.
  intros Hm Hs Hlen Hfew. rewrite fit_obs_unfold.
  destruct (fit_residual_eval_start snrenv pcdata snrenv sigma_s _ self Hm)
    as [k [q [s E]]].
  destruct (np_subtract_ok (transform_spec 0.577 snrenv k q s (fit_m m self))
              pcdata) as [r0 [Er0 Hr0]].
  { left. rewrite length_transform_spec. exact Hlen. }
  rewrite length_transform_spec in Hr0.
  assert (Hl : length r0 = length snrenv).
  { rewrite Hr0. destruct (length pcdata =? 1)%nat; lia. }
  unfold IdealObs.leastsq. cbn [fst snd]. rewrite E, Er0. cbn [rbind].
  destruct (Nat.ltb_spec (length r0) (length (fit_start sigma_s self)))
    as [_ | Hge]; [reflexivity | lia].
Qed.

Lemma fit_too_few_observations_witness :
  IdealObs.fit_obs (lmdif_fixed [Fin 1; Fin 0.5; Fin 0.6] 1)
    [Fin 1; Fin 2] [Fin 10; Fin 50] None None default_obs =
  (Raise TypeError, with_m default_obs (fit_m None default_obs)) /\
  IdealObs.fit_obs (lmdif_fixed [Fin 1; Fin 0.5] 1)
    [Fin 1] [Fin 10] (Some (Fin 0.5)) None default_obs =
  (Raise TypeError, with_m default_obs (fit_m None default_obs)).
Proof.
  split.
  - apply (fit_too_few_observations (lmdif_fixed [Fin 1; Fin 0.5; Fin 0.6] 1)
             [Fin 1; Fin 2] [Fin 10; Fin 50] None None default_obs).
    + exact default_m_truthy.
    + intros s E. discriminate E.
    + reflexivity.
    + simpl. lia.
  - apply (fit_too_few_observations (lmdif_fixed [Fin 1; Fin 0.5] 1)
             [Fin 1] [Fin 10] (Some (Fin 0.5)) None default_obs).
    + exact default_m_truthy.
    + intros s E. rewrite supplied_truthy in E by (apply truthy_Fin; lra).
      injection E as <-. rewrite Rabs_pos_eq by lra. lra.
    + reflexivity.
    + unfold fit_start. rewrite supplied_truthy by (apply truthy_Fin; lra).
      simpl. lia.
Defined.

(** X10: after a successful fit the model predicts with the optimiser's
    point.  When the optimiser returns [(a, b, c)] with a termination code
    from 1 to 8 in a fit with [sigma_s] free, [fit_obs] returns normally,
    and on the fitted model [snrenv_to_pc] is the transform with [k = a],
    [q = b], [sigma_s = c] and the [m] of the fit, and [get_params] returns
    these four values. *)
Theorem fit_then_predict (lmdif : optimiser)
    (snrenv pcdata x : list float64) (m : option float64) (self : Self.t)
    (r0 : list float64) (a b c : float64) (info : Z) :
  fit_residual snrenv None (fit_m m self) (fit_start None self)
    snrenv pcdata = Ok r0 ->
  (3 <= length r0)%nat ->
  lmdif (fun p => fit_residual snrenv None (fit_m m self) p snrenv pcdata)
    (fit_start None self) = Ok ([a; b; c], info) ->
  (1 <= info <= 8)%Z ->
  exists self',
    IdealObs.fit_obs lmdif snrenv pcdata None m self = (Ok tt, self') /\
    IdealObs.snrenv_to_pc x self' =
      (IdealObs._snrenv_to_pc x a b c (fit_m m self), self') /\
    IdealObs.get_params self' =
      [("k"%string, a); ("q"%string, b); ("sigma_s"%string, c);
       ("m"%string, fit_m m self)].
Proof.
  intros Hres Hlen Hopt Hinfo.
  destruct (fit_obs_stores lmdif snrenv pcdata None m self r0 [a; b; c] info
              Hres Hlen Hopt Hinfo eq_refl) as [self' [E [Hs [Hm _]]]].
  exists self'. split; [exact E |].
  rewrite (self_of_free_start self' a b c (fit_m m self) Hs Hm).
  split; reflexivity.
Qed.

Lemma fit_then_predict_witness :
  exists self',
    IdealObs.fit_obs (lmdif_fixed [Fin 1; Fin 0.5; Fin 0.7] 2)
      [Fin 1; Fin 2; Fin 3] [Fin 10; Fin 50; Fin 90] None None default_obs
      = (Ok tt, self') /\
    IdealObs.snrenv_to_pc [Fin 4] self' =
      (IdealObs._snrenv_to_pc [Fin 4] (Fin 1) (Fin 0.5) (Fin 0.7)
         (fit_m None default_obs), self') /\
    IdealObs.get_params self' =
      [("k"%string, Fin 1); ("q"%string, Fin 0.5); ("sigma_s"%string, Fin 0.7);
       ("m"%string, fit_m None default_obs)].
Proof.
  destruct (fit_residual_eval_start [Fin 1; Fin 2; Fin 3]
              [Fin 10; Fin 50; Fin 90] [Fin 1; Fin 2; Fin 3] None
              (fit_m None default_obs) default_obs default_m_truthy)
    as [k [q [s E]]].
  destruct (np_subtract_ok
              (transform_spec 0.577 [Fin 1; Fin 2; Fin 3] k q s
                 (fit_m None default_obs))
              [Fin 10; Fin 50; Fin 90]) as [r0 [Er0 Hr0]].
  { left. rewrite length_transform_spec. reflexivity. }
  rewrite Er0 in E. simpl in Hr0.
  apply (fit_then_predict (lmdif_fixed [Fin 1; Fin 0.5; Fin 0.7] 2)
           [Fin 1; Fin 2; Fin 3] [Fin 10; Fin 50; Fin 90] [Fin 4] None
           default_obs r0 (Fin 1) (Fin 0.5) (Fin 0.7) 2 E).
  - rewrite Hr0. lia.
  - apply (lmdif_fixed_returns _ _ _ _ r0 E).
  - lia.
Defined.

(* ================================================================= *)
(** ** Further properties of the psychometric function *)

Lemma psy_fn_arg_zero (mu sigma : R) :
  - (mu - mu) / (sqrt 2 * sigma) = 0.
Proof. unfold Rdiv. ring. Qed.

(** X11: [mu] is the point of 50 percent: for every finite [mu] and every
    finite [sigma] other than zero, [psy_fn] at [x = mu] is exactly 50. *)
Theorem psy_fn_midpoint (mu sigma : R) :
  sigma <> 0 ->
  psy_fn [Fin mu] (Fin mu) (Fin sigma) = [Fin 50].
Proof.
  intros Hs. unfold psy_fn. cbn [map].
  rewrite (psy_fn_finite_element mu mu sigma Hs), psy_fn_arg_zero.
  rewrite SpecialFacts.erfc_0. do 2 f_equal. lra.
Qed.

Lemma psy_fn_midpoint_witness :
  psy_fn [Fin (-3.1)] (Fin (-3.1)) (Fin 2.13) = [Fin 50].
Proof. apply (psy_fn_midpoint (-3.1) 2.13). lra. Defined.

(** X14: with [sigma = 0] the psychometric function raises nothing and is a
    step: 0 below [mu], 100 above [mu], and not-a-number at [mu] itself. *)
Theorem psy_fn_zero_sigma (x mu : R) :
  (x < mu -> psy_fn [Fin x] (Fin mu) (Fin 0) = [Fin 0]) /\
  (x = mu -> psy_fn [Fin x] (Fin mu) (Fin 0) = [NaN]) /\
  (mu < x -> psy_fn [Fin x] (Fin mu) (Fin 0) = [Fin 100]).
Proof.
  pose proof SpecialFacts.sqrt2_pos as H2.
  assert (Hd : forall a,
             fdiv (Fin a) (Fin (sqrt 2 * 0)) = inf_of (Rsign a)).
  { intros a. unfold fdiv. rewrite (Rsign_Zero (sqrt 2 * 0)) by ring.
    reflexivity. }
  unfold psy_fn. cbn [map]. rewrite fsqrt_Fin by lra.
  cbn [fsub fneg fadd fmul]. rewrite Hd.
  split; [| split]; intros H.
  - rewrite (Rsign_Pos (- (x + - mu))) by lra. cbn [inf_of erfc fmul].
    rewrite fdiv_Fin by lra. do 2 f_equal. lra.
  - rewrite (Rsign_Zero (- (x + - mu))) by lra. reflexivity.
  - rewrite (Rsign_Neg (- (x + - mu))) by lra. cbn [inf_of erfc fmul].
    rewrite fdiv_Fin by lra. do 2 f_equal. lra.
Qed.

Lemma psy_fn_zero_sigma_witness :
  psy_fn [Fin (-1)] (Fin 0) (Fin 0) = [Fin 0] /\
  psy_fn [Fin 0] (Fin 0) (Fin 0) = [NaN] /\
  psy_fn [Fin 1] (Fin 0) (Fin 0) = [Fin 100].
Proof.
  split; [| split].
  - apply (proj1 (psy_fn_zero_sigma (-1) 0)). lra.
  - apply (proj1 (proj2 (psy_fn_zero_sigma 0 0))). reflexivity.
  - apply (proj2 (proj2 (psy_fn_zero_sigma 1 0))). lra.
Defined.

(* ================================================================= *)
(** ** Parameters of the model *)

(** X16: a model is rebuilt from its parameters.  The dictionary of
    [get_params] has the four keys [k], [q], [sigma_s] and [m] and no other,
    and constructing a model from its entries gives the model back. *)
Theorem get_params_round_trip (self : Self.t) :
  let d := IdealObs.get_params self in
  IdealObs.__init__ (dict_get "k" d) (dict_get "q" d)
                    (dict_get "sigma_s" d) (dict_get "m" d) = Ok self /\
  forall key,
    dict_get key d <> None <->
    In key ["k"%string; "q"%string; "sigma_s"%string; "m"%string].
Proof.
  destruct self as [k q s m]. cbn zeta. split; [reflexivity |].
  intros key. unfold IdealObs.get_params. cbn [dict_get Self.k Self.q
    Self.sigma_s Self.m].
  destruct (String.eqb_spec key "k") as [-> | Hk].
  { split; [intros _; left; reflexivity | intros _; discriminate]. }
  destruct (String.eqb_spec key "q") as [-> | Hq].
  { split; [intros _; right; left; reflexivity | intros _; discriminate]. }
  destruct (String.eqb_spec key "sigma_s") as [-> | Hs].
  { split; [intros _; right; right; left; reflexivity
           | intros _; discriminate]. }
  destruct (String.eqb_spec key "m") as [-> | Hm].
  { split; [intros _; right; right; right; left; reflexivity
           | intros _; discriminate]. }
  split; [intros H; now elim H |].
  intros [H | [H | [H | [H | []]]]]; symmetry in H; contradiction.
Qed.
